(** * Mode-scoped memory segregation of the marriage counselor agent

    A shallow embedding of [src/agent.js], the class
    [MarriageCounselorAgent] of the deployment entry point: its mode table,
    its three tool sets, its instruction composer, [initialize], [invoke]
    [setMode] and [getModes]; of the deployment test script; and of the
    interactive command-line variants of the class (module [Cli], and the
    tools over a key/value store in module [Kv]).

    JavaScript strings are embedded as [string] (the bytes of their UTF-8
    encoding); template literals and [+] on strings become [+:+]. Objects
    used as maps are [gmap]s; a method that mutates [this] returns the
    updated object; a tool body runs in a small monad that threads the
    store, carries thrown errors and logs each store access.

    The language-model engine and the store are libraries outside the
    repository; they are modelled from their description in the
    specification and marked as such. *)

From stdpp Require Import gmap strings list fin_maps.

Local Open Scope string_scope.

(** ** JavaScript values of the configuration objects *)

(** The values found under the keys of [config.configurable]: the interface
    takes strings, and a key may be bound to [undefined] or [null]. A key
    that is absent from the object is absence from the map. *)
Inductive JsVal :=
  | JUndefined
  | JNull
  | JString (s : string).

#[global] Instance JsVal_eq_dec : EqDecision JsVal.
Proof. solve_decision. Defined.

(** ToBoolean: [undefined], [null] and the empty string are falsy. *)
Definition truthy (v : JsVal) : bool :=
  match v with
  | JString s => if decide (s = "") then false else true
  | _ => false
  end.

(** [v || d] followed by string interpolation, for a string literal [d]. *)
Definition js_or (v : JsVal) (d : string) : string :=
  match v with
  | JString s => if decide (s = "") then d else s
  | _ => d
  end.

(** A plain object with string keys. *)
Abbreviation JsObj := (gmap string JsVal).

(** [o?.k]: [undefined] when [o] is undefined or has no key [k]. *)
Definition opt_get (o : option JsObj) (k : string) : JsVal :=
  match o with
  | Some m => default JUndefined (m !! k)
  | None => JUndefined
  end.

(** [{...a, ...b}]: the keys of [b] override those of [a]; spreading
    [undefined] adds nothing. *)
Definition spread (a : JsObj) (b : option JsObj) : JsObj :=
  match b with
  | Some m => m ∪ a
  | None => a
  end.

(** A string given by its bytes. *)
Definition of_bytes (l : list nat) : string :=
  String.string_of_list_ascii (map Ascii.ascii_of_nat l).

(** [String.prototype.toUpperCase] on the UTF-8 bytes of a string. The
    letters a-z are mapped to A-Z, and so are the characters beyond ASCII
    whose upper case is made of ASCII letters: U+00DF to SS, U+0131 to I,
    U+017F to S, and the ligatures U+FB00 to U+FB06 to FF, FI, FL, FFI,
    FFL, ST and ST. Every other byte is kept: the case mapping of the
    remaining characters beyond ASCII, whose upper case is itself beyond
    ASCII, is not modelled. So the result is the code's whenever the
    code's is an ASCII string, such as a key of [MODES], and is no ASCII
    string otherwise. The general statements below only use
    [toUpperCase] through the mode-table lookup and do not depend on how
    it acts. *)
Definition upper_ascii (c : Ascii.ascii) : Ascii.ascii :=
  let n := Ascii.nat_of_ascii c in
  if (97 <=? n)%nat && (n <=? 122)%nat then Ascii.ascii_of_nat (n - 32) else c.

Definition upper_of_2 (c0 c1 : Ascii.ascii) : option string :=
  let a := Ascii.nat_of_ascii c0 in
  let b := Ascii.nat_of_ascii c1 in
  if (a =? 195)%nat && (b =? 159)%nat then Some "SS"
  else if (a =? 196)%nat && (b =? 177)%nat then Some "I"
  else if (a =? 197)%nat && (b =? 191)%nat then Some "S"
  else None.

Definition upper_of_3 (c0 c1 c2 : Ascii.ascii) : option string :=
  let a := Ascii.nat_of_ascii c0 in
  let b := Ascii.nat_of_ascii c1 in
  let c := Ascii.nat_of_ascii c2 in
  if (a =? 239)%nat && (b =? 172)%nat then
    if (c =? 128)%nat then Some "FF"
    else if (c =? 129)%nat then Some "FI"
    else if (c =? 130)%nat then Some "FL"
    else if (c =? 131)%nat then Some "FFI"
    else if (c =? 132)%nat then Some "FFL"
    else if (c =? 133)%nat || (c =? 134)%nat then Some "ST"
    else None
  else None.

Fixpoint toUpperCase (s : string) : string :=
  match s with
  | EmptyString => EmptyString
  | String c r =>
      let plain := String (upper_ascii c) (toUpperCase r) in
      match r with
      | EmptyString => plain
      | String c1 r1 =>
          match upper_of_2 c c1 with
          | Some u => u +:+ toUpperCase r1
          | None =>
              match r1 with
              | EmptyString => plain
              | String c2 r2 =>
                  match upper_of_3 c c1 c2 with
                  | Some u => u +:+ toUpperCase r2
                  | None => plain
                  end
              end
          end
      end
  end.

(** ** Agent modes *)

Module MODES.
Definition USER : string := "my_point_of_view".
Definition WIFE : string := "her_point_of_view".
Definition SOLOMON : string := "king_solomon_wise".

(** The object [MODES] itself, for the computed accesses [MODES[k]]. An
    upper-cased key never names an inherited property of a plain object
    (all of those contain a lower-case letter), so own keys suffice. *)
Definition table : gmap string string :=
  list_to_map [("USER", USER); ("WIFE", WIFE); ("SOLOMON", SOLOMON)].

Definition keys : list string := ["USER"; "WIFE"; "SOLOMON"].
Definition values : list string := [USER; WIFE; SOLOMON].
End MODES.


(** ** Errors *)

(** What a call can throw. The program itself only ever throws [Error];
    the store and the reasoning engine throw their own. *)
Inductive Exn :=
  | Error (message : string)
  | StoreFault (message : string)
  | EngineFault (message : string).

(** ** The Fact Store interface *)

(** The stored value [{ content: ... }] and the item [store.get] returns,
    read by the program as [item?.value?.content]. *)
Record Story := { content : JsVal }.
Record Item := { value : Story }.

(** The two methods of the store the tools call. Either may throw; a [get]
    of a key nobody wrote returns [null]. *)
Class BaseStore (St : Type) := {
  store_put : list string → string → Story → St → Exn + St;
  store_get : list string → string → St → Exn + option Item
}.

(** Every call of a store method, in program order. *)
Inductive StoreEvent :=
  | EvPut (namespace : list string) (key : string) (v : Story)
  | EvGet (namespace : list string) (key : string).

(** ** The monad of tool bodies: store state, thrown errors, access log *)

Definition ToolM (St A : Type) : Type := St → (Exn + A) * St * list StoreEvent.

Section ToolMonad.
Context {St : Type} `{BaseStore St}.

Definition ret {A} (a : A) : ToolM St A := fun s => (inr a, s, []).

Definition throw {A} (e : Exn) : ToolM St A := fun s => (inl e, s, []).

Definition bind {A B} (m : ToolM St A) (k : A → ToolM St B) : ToolM St B :=
  fun s =>
    match m s with
    | (inl e, s', l) => (inl e, s', l)
    | (inr a, s', l) =>
        match k a s' with
        | (r, s'', l') => (r, s'', (l ++ l')%list)
        end
    end.

(** [try { m } catch (e) { h e }] *)
Definition try_catch {A} (m : ToolM St A) (h : Exn → ToolM St A) : ToolM St A :=
  fun s =>
    match m s with
    | (inl e, s', l) =>
        match h e s' with
        | (r, s'', l') => (r, s'', (l ++ l')%list)
        end
    | ok => ok
    end.

(** [await store.put(namespace, key, v)] *)
Definition put (namespace : list string) (key : string) (v : Story) : ToolM St unit :=
  fun s =>
    match store_put namespace key v s with
    | inl e => (inl e, s, [EvPut namespace key v])
    | inr s' => (inr tt, s', [EvPut namespace key v])
    end.

(** [await store.get(namespace, key)] *)
Definition get (namespace : list string) (key : string) : ToolM St (option Item) :=
  fun s =>
    match store_get namespace key s with
    | inl e => (inl e, s, [EvGet namespace key])
    | inr r => (inr r, s, [EvGet namespace key])
    end.
End ToolMonad.

Notation "x <~ m ;; k" := (bind m (fun x => k))
  (at level 100, m at next level, right associativity).
Notation "m ;;; k" := (bind m (fun _ => k))
  (at level 100, right associativity).

(** ** Tools *)

(** The handle [config.store] a compiled graph passes to its tools. *)
Inductive StoreHandle := SharedStore.

(** The [config] argument of [invoke], of a tool body and of a prompt
    function: the keys the program reads. *)
Module Config.
Record t := {
  store : option StoreHandle;
  configurable : option JsObj
}.
End Config.

(** The two zod schemas of the program: [z.object({ story: z.string() })]
    and [z.object({})]. *)
Inductive Schema :=
  | ObjStory
  | ObjEmpty.

(** Parsing the arguments of a tool call: unknown keys are stripped, and a
    story that is not a string is rejected. *)
Definition parse (sch : Schema) (args : JsObj) : option JsObj :=
  match sch with
  | ObjStory =>
      match args !! "story" with
      | Some (JString s) => Some {[ "story" := JString s ]}
      | _ => None
      end
  | ObjEmpty => Some ∅
  end.

Record Tool (St : Type) := {
  func : JsObj → Config.t → ToolM St string;
  name : string;
  description : string;
  schema : Schema
}.
Arguments func {St} _ _ _.
Arguments name {St} _.
Arguments description {St} _.
Arguments schema {St} _.

Definition LF : string := String (Ascii.ascii_of_nat 10) "".

(** String(v), for a value appended to a string. *)
Definition js_to_string (v : JsVal) : string :=
  match v with
  | JUndefined => "undefined"
  | JNull => "null"
  | JString s => s
  end.

(** [item?.value?.content] *)
Definition item_content (o : option Item) : JsVal :=
  match o with
  | Some it => content (value it)
  | None => JUndefined
  end.

Section Tools.
Context {St : Type} `{BaseStore St}.

Definition saveUserStory (input : JsObj) (config : Config.t) : ToolM St string :=
  match Config.store config with
  | None => throw (Error "store is required when compiling the graph")
  | Some _ =>
      let userId := js_or (opt_get (Config.configurable config) "userId") "default_user" in
      try_catch
        (put ["stories"] (userId +:+ "_user")
             {| content := opt_get (Some input) "story" |})
        (fun storeError => throw storeError) ;;;
      ret "I understand your perspective. I'll remember this for any future counsel."
  end.

Definition createUserModeTools : list (Tool St) :=
  [ {| func := saveUserStory;
       name := "save_user_story";
       description := "Save important details about your grievances and perspective";
       schema := ObjStory |} ].

Definition saveWifeStory (input : JsObj) (config : Config.t) : ToolM St string :=
  match Config.store config with
  | None => throw (Error "store is required when compiling the graph")
  | Some _ =>
      let userId := js_or (opt_get (Config.configurable config) "userId") "default_user" in
      try_catch
        (put ["stories"] (userId +:+ "_wife")
             {| content := opt_get (Some input) "story" |})
        (fun storeError => throw storeError) ;;;
      ret "I understand her perspective on this situation."
  end.

Definition createWifeModeTools : list (Tool St) :=
  [ {| func := saveWifeStory;
       name := "save_wife_story";
       description := "Save important details about the wife's perspective and grievances";
       schema := ObjStory |} ].

Definition getBothStories (input : JsObj) (config : Config.t) : ToolM St string :=
  match Config.store config with
  | None => throw (Error "store is required when compiling the graph")
  | Some _ =>
      let userId := js_or (opt_get (Config.configurable config) "userId") "default_user" in
      userStory <~ try_catch (get ["stories"] (userId +:+ "_user"))
                             (fun error => ret None) ;;
      wifeStory <~ try_catch (get ["stories"] (userId +:+ "_wife"))
                             (fun error => ret None) ;;
      let result := "ðŸ“œ BOTH PERSPECTIVES:" +:+ LF +:+ LF in
      let result :=
        if truthy (item_content userStory)
        then result +:+ "ðŸ‘¤ **User's Grievance:** "
                    +:+ js_to_string (item_content userStory) +:+ LF +:+ LF
        else result +:+ "ðŸ‘¤ **User's Grievance:** No story shared yet" +:+ LF +:+ LF in
      let result :=
        if truthy (item_content wifeStory)
        then result +:+ "ðŸ‘© **Wife's Perspective:** "
                    +:+ js_to_string (item_content wifeStory)
        else result +:+ "ðŸ‘© **Wife's Perspective:** No story shared yet" in
      ret result
  end.

Definition createSolomonModeTools : list (Tool St) :=
  [ {| func := getBothStories;
       name := "get_both_stories";
       description := "Retrieve both the user's grievances and wife's perspective to render judgment";
       schema := ObjEmpty |} ].
End Tools.

(** ** Messages and the instruction composer *)

Module Message.
Record t := { role : string; content : string }.
End Message.

(** The state a prompt function receives and an agent run returns. *)
Module State.
Record t := { messages : list Message.t }.
End State.

Definition DQ : string := String (Ascii.ascii_of_nat 34) "".

(** The text of a template literal, line by line. *)
Definition unlines (ls : list string) : string := String.concat LF ls.

Definition systemMessages : gmap string string :=
  list_to_map
    [ (MODES.USER, unlines
        [ "You are a best friend who listens to the users stories and understands their perspective. You're the friend who always has their back and makes them feel heard and validated.";
          "";
          "CRITICAL: Whenever they share ANY relationship problems, complaints, or grievances about their wife/partner, you MUST call save_user_story to save those details for future counseling sessions. This includes ANY negative feelings, frustrations, or conflicts they mention.";
          "";
          "Your approach:";
          "- Listen and validate their feelings";
          "- IMMEDIATELY call save_user_story when they share any relationship issues";
          "- Ask follow-up questions to understand better  ";
          "- Give supportive advice based on what they tell you in the conversation";
          "- Always save important grievances - this is essential for the counseling process" ]);
      (MODES.WIFE, unlines
        [ "You are role-playing as the wife responding to grievances being aired about you. You don't know what specific complaints have been made, so ask them to tell you what they're upset about.";
          "";
          "CRITICAL: Whenever you give your perspective, explanation, or response to complaints, you MUST call save_wife_story to save your side of the story for future counseling sessions.";
          "";
          "Your approach:";
          "- Ask them to explain what they're upset about if needed";
          "- Respond authentically as the wife explaining your side";
          "- IMMEDIATELY call save_wife_story after giving your perspective";
          "- Be authentic - not neutral, but actually responding as someone defending themselves";
          "- Always save your explanations and justifications for future reference" ]);
      (MODES.SOLOMON, unlines
        [ "You are King Solomon, the wise counselor who advises the user on where they went wrong and how to fix it. You must call get_both_stories to access both the user's grievances and the wife's responses before making recommendations.";
          "";
          "Your approach:";
          "- Review both sides objectively: " +:+ DQ +:+ "I can see that you feel... and she feels..." +:+ DQ;
          "- Identify the real underlying issues beyond the surface complaints";
          "- Give specific, actionable recommendations for both parties";
          "- " +:+ DQ +:+ "Here's what I think you should try..." +:+ DQ +:+ " ";
          "- " +:+ DQ +:+ "She probably needs..." +:+ DQ +:+ " and " +:+ DQ +:+ "You probably need..." +:+ DQ;
          "- Suggest practical steps to improve the situation";
          "- Address both people's valid concerns";
          "- Speak with wisdom but in a relatable, helpful way";
          "";
          "You're the wise friend who sees the bigger picture and gives solid advice to help them actually work things out." ]) ].

(** The static part of [getPromptFunction]:
    [systemMessages[mode] || "You are a helpful assistant."]. *)
Definition systemMessage (mode : string) : string :=
  match systemMessages !! mode with
  | Some t => if decide (t = "") then "You are a helpful assistant." else t
  | None => "You are a helpful assistant."
  end.

(** The closure [getPromptFunction(mode)] returns, applied to [state] and
    [config]. *)
Definition getPromptFunction (mode : string) (state : State.t) (config : Config.t)
  : list Message.t :=
  let userId := js_or (opt_get (Config.configurable config) "userId") "default_user" in
  let sessionId := js_or (opt_get (Config.configurable config) "sessionId") "default_session" in
  let dynamicSystemMsg :=
    systemMessage mode +:+ LF +:+ LF +:+
    "Session Info: You are in " +:+ mode +:+ " mode for user " +:+ userId +:+
    " in session " +:+ sessionId +:+ "." in
  {| Message.role := "system"; Message.content := dynamicSystemMsg |}
    :: State.messages state.

(** ** The reasoning engine *)

(** One step of the chat model: a final answer or the call of a tool. *)
Inductive LlmOut :=
  | Answer (text : string)
  | CallTool (tool_name : string) (args : JsObj).

Definition ChatModel := list Message.t → LlmOut.

(** The parameters [createReactAgent] is given. *)
Record ReactAgent (St : Type) := {
  llm : ChatModel;
  tools : list (Tool St);
  checkpointSaver : bool;
  agent_store : option StoreHandle;
  prompt : State.t → Config.t → list Message.t
}.
Arguments llm {St} _.
Arguments tools {St} _.
Arguments checkpointSaver {St} _.
Arguments agent_store {St} _.
Arguments prompt {St} _.

(** A tool call the engine executed, with the store accesses it made. *)
Record ToolCallRecord := {
  tc_name : string;
  tc_events : list StoreEvent
}.

Definition find_tool {St} (ts : list (Tool St)) (nm : string) : option (Tool St) :=
  find (fun t => bool_decide (name t = nm)) ts.

Definition ai_message (text : string) : Message.t :=
  {| Message.role := "assistant"; Message.content := text |}.

Definition tool_message (text : string) : Message.t :=
  {| Message.role := "tool"; Message.content := text |}.

(** Modelled from the spec: the external reasoning engine, which is not
    part of the repository ([run(instructionSequence, toolset, threadKey)]).
    Each round composes the instruction with the agent's prompt function
    and asks the model; a tool call is looked up by name in the agent's own
    tool set, its arguments are parsed with the tool's schema, and the tool
    runs on the store; any tool or engine error ends the run and is
    propagated unchanged. The number of rounds is bounded by the
    engine's recursion limit. *)
Fixpoint react_loop {St} (limit : nat) (ag : ReactAgent St) (config : Config.t)
    (msgs : list Message.t) (s : St)
  : (Exn + list Message.t) * St * list ToolCallRecord :=
  match limit with
  | O => (inl (EngineFault "Recursion limit reached"), s, [])
  | Datatypes.S n =>
      match llm ag (prompt ag {| State.messages := msgs |} config) with
      | Answer text => (inr (msgs ++ [ai_message text])%list, s, [])
      | CallTool nm args =>
          match find_tool (tools ag) nm with
          | None => (inl (EngineFault ("Unknown tool: " +:+ nm)), s, [])
          | Some t =>
              match parse (schema t) args with
              | None =>
                  (inl (Error "Received tool input did not match expected schema"), s, [])
              | Some input =>
                  match func t input config s with
                  | (inl e, s', evs) =>
                      (inl e, s', [{| tc_name := name t; tc_events := evs |}])
                  | (inr out, s', evs) =>
                      match react_loop n ag config
                              (msgs ++ [ai_message ""; tool_message out])%list s' with
                      | (r, s'', tr) =>
                          (r, s'', {| tc_name := name t; tc_events := evs |} :: tr)
                      end
                  end
              end
          end
      end
  end.

(** The memory of the engine ([MemorySaver]) and the long-term store. *)
Record World (St : Type) := {
  checkpoints : gmap string (list Message.t);
  facts : St
}.
Arguments checkpoints {St} _.
Arguments facts {St} _.

(** The configuration an agent hands to its tools and prompt function:
    the caller's [configurable] and the store the graph was compiled
    with. *)
Definition engine_config {St} (ag : ReactAgent St) (config : Config.t) : Config.t :=
  {| Config.store := agent_store ag; Config.configurable := Config.configurable config |}.

(** Modelled from the spec: [agent.invoke(input, config)] of the external
    engine. The conversation history is kept per [thread_id]; the tools
    receive the store the graph was compiled with and the caller's
    [configurable]. *)
Definition agent_invoke {St} (limit : nat) (ag : ReactAgent St) (input : State.t)
    (config : Config.t) (w : World St)
  : (Exn + State.t) * World St * list ToolCallRecord :=
  match opt_get (Config.configurable config) "thread_id" with
  | JString thread =>
      let history := default [] (checkpoints w !! thread) in
      match react_loop limit ag (engine_config ag config)
              (history ++ State.messages input)%list (facts w) with
      | (inr msgs, s', tr) =>
          (inr {| State.messages := msgs |},
           {| checkpoints := <[thread := msgs]> (checkpoints w); facts := s' |}, tr)
      | (inl e, s', tr) =>
          (inl e, {| checkpoints := checkpoints w; facts := s' |}, tr)
      end
  | _ => (inl (EngineFault "thread_id is required"), w, [])
  end.

(** ** The in-memory store *)

(** Modelled from the spec: the Fact Store ([InMemoryStore] of the engine's
    library, which is not part of the repository): a durable key/value
    record store addressed by namespace and key, where the newest [put] of
    a key is authoritative and a [get] of an unwritten key is absent. *)
Record InMemoryStore := { data : gmap (list string * string) Story }.

#[global] Instance InMemoryStore_BaseStore : BaseStore InMemoryStore := {
  store_put ns k v s := inr {| data := <[(ns, k) := v]> (data s) |};
  store_get ns k s := inr ((fun v => {| value := v |}) <$> data s !! (ns, k))
}.

(** A store whose backend can be down, for the fault paths of the tools:
    while [put_down] (resp. [get_down]) is set, the method throws. *)
Record FlakyStore := {
  backend : InMemoryStore;
  put_down : bool;
  get_down : bool
}.

#[global] Instance FlakyStore_BaseStore : BaseStore FlakyStore := {
  store_put ns k v s :=
    if put_down s then inl (StoreFault "store unavailable")
    else match store_put ns k v (backend s) with
         | inl e => inl e
         | inr b => inr {| backend := b; put_down := put_down s; get_down := get_down s |}
         end;
  store_get ns k s :=
    if get_down s then inl (StoreFault "store unavailable")
    else store_get ns k (backend s)
}.

(** ** The class [MarriageCounselorAgent] *)

(** What the class reads from its process: the environment, the chat-model
    factory and the engine's recursion limit. *)
Record Process := {
  OPENAI_API_KEY : JsVal;
  ANTHROPIC_API_KEY : JsVal;
  initChatModel : string → string → Exn + ChatModel;
  recursionLimit : nat
}.

Definition exn_message (e : Exn) : string :=
  match e with
  | Error m | StoreFault m | EngineFault m => m
  end.

(** The argument [input] of [invoke]. *)
Module Input.
Record t := {
  mode : JsVal;
  messages : option (list Message.t);
  input : JsVal;
  content : JsVal
}.
End Input.

Record MarriageCounselorAgent (St : Type) := {
  currentMode : string;
  agents : gmap string (ReactAgent St);
  checkpointer : gmap string (list Message.t);
  store : St;
  initialized : bool
}.
Arguments currentMode {St} _.
Arguments agents {St} _.
Arguments checkpointer {St} _.
Arguments store {St} _.
Arguments initialized {St} _.

Definition constructor : MarriageCounselorAgent InMemoryStore :=
  {| currentMode := MODES.SOLOMON;
     agents := ∅;
     checkpointer := ∅;
     store := {| data := ∅ |};
     initialized := false |}.

(** The conversation-thread key of [invoke]'s default configuration:
    [`${this.currentMode}_${config.configurable?.sessionId || 'default'}`]. *)
Definition threadKey (persona : string) (sessionId : JsVal) : string :=
  persona +:+ "_" +:+ js_or sessionId "default".

Section Class.
Context {St : Type} `{BaseStore St}.

Definition createReactAgent (model : ChatModel) (ts : list (Tool St)) (mode : string)
  : ReactAgent St :=
  {| llm := model;
     tools := ts;
     checkpointSaver := true;
     agent_store := Some SharedStore;
     prompt := getPromptFunction mode |}.

Definition initialize (proc : Process) (self : MarriageCounselorAgent St)
  : Exn + MarriageCounselorAgent St :=
  if initialized self then inr self
  else if negb (truthy (OPENAI_API_KEY proc)) && negb (truthy (ANTHROPIC_API_KEY proc))
  then inl (Error "Please set OPENAI_API_KEY or ANTHROPIC_API_KEY in your environment")
  else
    match initChatModel proc
            (if truthy (OPENAI_API_KEY proc) then "gpt-4o" else "claude-3-5-sonnet-20241022")
            (if truthy (OPENAI_API_KEY proc) then "openai" else "anthropic") with
    | inl error => inl (Error ("Failed to initialize agent: " +:+ exn_message error))
    | inr model =>
        let userModeTools := createUserModeTools in
        let wifeModeTools := createWifeModeTools in
        let solomonModeTools := createSolomonModeTools in
        inr {| currentMode := currentMode self;
               agents :=
                 <[MODES.SOLOMON := createReactAgent model solomonModeTools MODES.SOLOMON]>
                 (<[MODES.WIFE := createReactAgent model wifeModeTools MODES.WIFE]>
                 (<[MODES.USER := createReactAgent model userModeTools MODES.USER]>
                    (agents self)));
               checkpointer := checkpointer self;
               store := store self;
               initialized := true |}
    end.

(** [defaultConfig.configurable] of [invoke]. *)
Definition defaultConfigurable (self : MarriageCounselorAgent St) (config : Config.t)
  : JsObj :=
  list_to_map
    [ ("thread_id",
        JString (threadKey (currentMode self) (opt_get (Config.configurable config) "sessionId")));
      ("checkpoint_ns", JString "");
      ("userId", JString (js_or (opt_get (Config.configurable config) "userId") "default_user"));
      ("sessionId",
        JString (js_or (opt_get (Config.configurable config) "sessionId") "default_session")) ].

(** [mergedConfig] of [invoke]. *)
Definition mergedConfig (self : MarriageCounselorAgent St) (config : Config.t) : Config.t :=
  {| Config.store := Config.store config;
     Config.configurable :=
       Some (spread (defaultConfigurable self config) (Config.configurable config)) |}.

(** The agent that handles the turn: [input.mode] when its upper-cased
    form is a key of [MODES], the current mode otherwise. *)
Definition resolve_mode (self : MarriageCounselorAgent St) (input : Input.t) : string :=
  if truthy (Input.mode input) then
    match MODES.table !! toUpperCase (js_to_string (Input.mode input)) with
    | Some m => if decide (m = "") then currentMode self else m
    | None => currentMode self
    end
  else currentMode self.

(** [input.messages || [{ role: "user", content: input.input || input.content || "" }]] *)
Definition input_messages (input : Input.t) : list Message.t :=
  match Input.messages input with
  | Some ms => ms
  | None =>
      [ {| Message.role := "user";
           Message.content := js_or (Input.input input) (js_or (Input.content input) "") |} ]
  end.

(** [invoke(input, config)]. Beside the response and the updated
    object, the result lists the tool calls the turn executed, each
    with the mode of the agent that ran it. *)
Definition invoke (proc : Process) (self : MarriageCounselorAgent St)
    (input : Input.t) (config : Config.t)
  : (Exn + State.t) * MarriageCounselorAgent St * list (string * ToolCallRecord) :=
  match initialize proc self with
  | inl e => (inl e, self, [])
  | inr self =>
      let merged := mergedConfig self config in
      let mode := resolve_mode self input in
      match agents self !! mode with
      | None => (inl (Error ("Agent not initialized for mode: " +:+ mode)), self, [])
      | Some ag =>
          match agent_invoke (recursionLimit proc) ag
                  {| State.messages := input_messages input |} merged
                  {| checkpoints := checkpointer self; facts := store self |} with
          | (response, w, tr) =>
              (response,
               {| currentMode := currentMode self;
                  agents := agents self;
                  checkpointer := checkpoints w;
                  store := facts w;
                  initialized := initialized self |},
               map (pair mode) tr)
          end
      end
  end.

(** [setMode(mode)]: the returned boolean and the updated object. *)
Definition setMode (self : MarriageCounselorAgent St) (mode : string)
  : bool * MarriageCounselorAgent St :=
  match MODES.table !! toUpperCase mode with
  | Some m =>
      if decide (m = "") then (false, self)
      else (true,
            {| currentMode := m;
               agents := agents self;
               checkpointer := checkpointer self;
               store := store self;
               initialized := initialized self |})
  | None => (false, self)
  end.

Definition getModeDescription (mode : string) : string :=
  if decide (mode = MODES.USER)
  then "Your Perspective - Takes your side and validates your feelings"
  else if decide (mode = MODES.WIFE)
  then "Her Perspective - Role-plays as your wife responding to complaints"
  else if decide (mode = MODES.SOLOMON)
  then "King Solomon - Wise, neutral judge with access to both perspectives"
  else "Unknown Mode".

(** A run of the system: calls of [invoke] and [setMode] in sequence. *)
Inductive Command :=
  | DoInvoke (input : Input.t) (config : Config.t)
  | DoSetMode (mode : string).

Fixpoint run (proc : Process) (self : MarriageCounselorAgent St) (cmds : list Command)
  : MarriageCounselorAgent St * list (string * ToolCallRecord) :=
  match cmds with
  | [] => (self, [])
  | DoInvoke input config :: rest =>
      match invoke proc self input config with
      | (_, self', tr) =>
          match run proc self' rest with
          | (self'', tr') => (self'', (tr ++ tr')%list)
          end
      end
  | DoSetMode mode :: rest => run proc (snd (setMode self mode)) rest
  end.
End Class.


(** ** Definitions used to state the properties *)

(** The object after [this.currentMode = m]. *)
Definition set_currentMode {St} (self : MarriageCounselorAgent St) (m : string)
  : MarriageCounselorAgent St :=
  {| currentMode := m;
     agents := agents self;
     checkpointer := checkpointer self;
     store := store self;
     initialized := initialized self |}.

(** The wiring [initialize] establishes: whatever agent is registered under
    a mode was compiled with that mode's tool set and with the store. *)
Definition agents_ok {St} `{BaseStore St} (self : MarriageCounselorAgent St) : Prop :=
  ∀ m ag, agents self !! m = Some ag →
    agent_store ag = Some SharedStore ∧
    ((m = MODES.USER ∧ tools ag = createUserModeTools) ∨
     (m = MODES.WIFE ∧ tools ag = createWifeModeTools) ∨
     (m = MODES.SOLOMON ∧ tools ag = createSolomonModeTools)).

(** The errors a call of [invoke] can end in when the store itself never
    throws: those of [initialize], the guard on the agent table, and those
    of the engine. None of them is about the persona named by the input or
    about a missing identity. *)
Definition setup_or_engine_error (e : Exn) : Prop :=
  e = Error "Please set OPENAI_API_KEY or ANTHROPIC_API_KEY in your environment" ∨
  (∃ m, e = Error ("Failed to initialize agent: " +:+ m)) ∨
  (∃ m, e = Error ("Agent not initialized for mode: " +:+ m)) ∨
  e = Error "Received tool input did not match expected schema" ∨
  (∃ m, e = EngineFault m).

(** The write policy on one executed tool call [(mode, call)]: a write to
    a key ["{userId}_user"] comes from the Advocate's agent running a tool
    of the Advocate's tool set, and a write to ["{userId}_wife"] from the
    OpposingRolePlay agent running one of its tools. *)
Definition writer_ok (St : Type) `{BaseStore St} (entry : string * ToolCallRecord) : Prop :=
  ∀ ns key v, EvPut ns key v ∈ tc_events entry.2 →
    (∀ u, key = u +:+ "_user" →
       entry.1 = MODES.USER ∧
       tc_name entry.2 ∈ map name (createUserModeTools (St := St))) ∧
    (∀ u, key = u +:+ "_wife" →
       entry.1 = MODES.WIFE ∧
       tc_name entry.2 ∈ map name (createWifeModeTools (St := St))).

(** The user id a tool derives from its [config]. *)
Definition tool_userId (config : Config.t) : string :=
  js_or (opt_get (Config.configurable config) "userId") "default_user".

(** The input [{ ...input, mode: v }]. *)
Definition set_mode (input : Input.t) (v : JsVal) : Input.t :=
  {| Input.mode := v;
     Input.messages := Input.messages input;
     Input.input := Input.input input;
     Input.content := Input.content input |}.

(** A tool call a tool set can produce under a configuration: the call
    of one of its tools on some input and store, with the accesses that
    call makes. *)
Definition call_of {St} (ts : list (Tool St)) (config : Config.t) (call : ToolCallRecord)
  : Prop :=
  ∃ t input s,
    t ∈ ts ∧ tc_name call = name t ∧ tc_events call = (func t input config s).2.

Definition event_key (ev : StoreEvent) : string :=
  match ev with
  | EvPut _ key _ | EvGet _ key => key
  end.

(** The outcome of one read as the combined-read tool sees it: a store
    fault counts as an absent record. *)
Definition fetch {St} `{BaseStore St} (s : St) (key : string) : option Item :=
  match store_get ["stories"] key s with
  | inr o => o
  | inl _ => None
  end.

(** One side of the combined text: the stored text when there is a
    non-empty one, the marker otherwise. *)
Definition side_text (o : option Item) : string :=
  match o with
  | Some {| value := {| content := JString a |} |} =>
      if decide (a = "") then "No story shared yet" else a
  | _ => "No story shared yet"
  end.

(** The combined text: user side first, opposing side second. *)
Definition combined_text (user wife : string) : string :=
  "ðŸ“œ BOTH PERSPECTIVES:" +:+ LF +:+ LF +:+
  "ðŸ‘¤ **User's Grievance:** " +:+ user +:+ LF +:+ LF +:+
  "ðŸ‘© **Wife's Perspective:** " +:+ wife.

(** The dynamic trailer of the composed instruction. *)
Definition session_info (mode userId sessionId : string) : string :=
  "Session Info: You are in " +:+ mode +:+ " mode for user " +:+ userId +:+
  " in session " +:+ sessionId +:+ ".".

(** *** Concrete scenarios *)

(** A chat model that follows a script: its n-th step is taken once the
    prompt holds n tool results. *)
Definition scripted (steps : list LlmOut) : ChatModel :=
  fun instruction =>
    let done :=
      length (filter (fun m => Message.role m = "tool") instruction) in
    nth done steps (Answer "").

(** A chat model that plays each persona as its instruction asks: on the
    first round of a thread it calls the persona's tool, then it answers. *)
Definition persona_model (user_story wife_story : string) : ChatModel :=
  fun instruction =>
    match filter (fun m => Message.role m = "tool") instruction, instruction with
    | [], sys :: _ =>
        if String.prefix "You are a best friend" (Message.content sys)
        then CallTool "save_user_story" {[ "story" := JString user_story ]}
        else if String.prefix "You are role-playing as the wife" (Message.content sys)
        then CallTool "save_wife_story" {[ "story" := JString wife_story ]}
        else CallTool "get_both_stories" ∅
    | _, _ => Answer "I see."
    end.

Definition demo_process (model : ChatModel) : Process :=
  {| OPENAI_API_KEY := JString "sk-test";
     ANTHROPIC_API_KEY := JUndefined;
     initChatModel := fun _ _ => inr model;
     recursionLimit := 25 |}.

Definition say (mode : JsVal) (text : string) : Input.t :=
  {| Input.mode := mode;
     Input.messages := None;
     Input.input := JString text;
     Input.content := JUndefined |}.

(** The caller's [config]: [{}] and [{ configurable: c }]. *)
Definition no_config : Config.t :=
  {| Config.store := None; Config.configurable := None |}.

Definition with_configurable (c : JsObj) : Config.t :=
  {| Config.store := None; Config.configurable := Some c |}.

(** The [config] a compiled graph hands to a tool for user [u]. *)
Definition tool_config (u : string) : Config.t :=
  {| Config.store := Some SharedStore;
     Config.configurable := Some {[ "userId" := JString u ]} |}.

Definition story_input (text : string) : JsObj := {[ "story" := JString text ]}.

Definition empty_store : InMemoryStore := {| data := ∅ |}.

Definition down_store : FlakyStore :=
  {| backend := empty_store; put_down := true; get_down := true |}.

(** ** Discovery of the modes *)

(** The own properties of [MODES] in insertion order, as [Object.keys]
    enumerates them, each with the value [MODES[key]]. *)
Definition MODES_entries : list (string * string) :=
  [("USER", MODES.USER); ("WIFE", MODES.WIFE); ("SOLOMON", MODES.SOLOMON)].

(** An element of the array [getModes] returns. *)
Module ModeInfo.
Record t := { key : string; value : string; description : string }.
End ModeInfo.

(** [getModes()] *)
Definition getModes : list ModeInfo.t :=
  map (fun entry : string * string =>
         {| ModeInfo.key := entry.1;
            ModeInfo.value := entry.2;
            ModeInfo.description := getModeDescription entry.2 |})
      MODES_entries.

(** ** The deployment test script *)

Definition testCases : list (string * string) :=
  [ ("SOLOMON", "My wife and I keep arguing about money. She spends too much and I feel like she doesn't understand our budget constraints.");
    ("USER", "I work hard all day and when I come home, she's bought more stuff we don't need. It's frustrating!");
    ("WIFE", "He says I spend too much, but I only buy things we need for the house. He doesn't appreciate what I do.") ].

(** The call the script makes for one test case. *)
Definition testCall (testCase : string * string) : Command :=
  DoInvoke
    {| Input.mode := JString testCase.1;
       Input.messages :=
         Some [ {| Message.role := "user"; Message.content := testCase.2 |} ];
       Input.input := JUndefined;
       Input.content := JUndefined |}
    {| Config.store := None;
       Config.configurable :=
         Some (list_to_map [ ("userId", JString "test_user");
                             ("sessionId", JString "test_session") ]) |}.

(** [testDeploymentAgent()]: a new agent is initialized, then invoked once
    per test case; an error of a case is caught and the next case runs; an
    error of the initialization ends the script. The result is the agent at
    the end and the tool calls made (console output is not modelled). *)
Definition testDeploymentAgent (proc : Process)
  : MarriageCounselorAgent InMemoryStore * list (string * ToolCallRecord) :=
  match initialize proc constructor with
  | inl _ => (constructor, [])
  | inr agent => run proc agent (map testCall testCases)
  end.

(** ** The command-line variants of the class *)

(** [String.prototype.toLowerCase] on the UTF-8 bytes of a string. The
    letters A-Z are mapped to a-z, and so is the one character beyond
    ASCII whose lower case is an ASCII letter, U+212A (the Kelvin sign) to
    k. Every other byte is kept: the case mapping of the remaining
    characters beyond ASCII, whose lower case is itself beyond ASCII, is
    not modelled. So the result is the code's whenever the code's is an
    ASCII string, such as [exit] and [menu], and is no ASCII string
    otherwise. *)
Definition lower_ascii (c : Ascii.ascii) : Ascii.ascii :=
  let n := Ascii.nat_of_ascii c in
  if (65 <=? n)%nat && (n <=? 90)%nat then Ascii.ascii_of_nat (n + 32) else c.

Definition lower_of_3 (c0 c1 c2 : Ascii.ascii) : option string :=
  if (Ascii.nat_of_ascii c0 =? 226)%nat && (Ascii.nat_of_ascii c1 =? 132)%nat &&
     (Ascii.nat_of_ascii c2 =? 170)%nat
  then Some "k" else None.

Fixpoint toLowerCase (s : string) : string :=
  match s with
  | EmptyString => EmptyString
  | String c r =>
      let plain := String (lower_ascii c) (toLowerCase r) in
      match r with
      | String c1 (String c2 r2) =>
          match lower_of_3 c c1 c2 with
          | Some l => l +:+ toLowerCase r2
          | None => plain
          end
      | _ => plain
      end
  end.

(** The white space and the line terminators [String.prototype.trim]
    removes, by the bytes of their UTF-8 encoding: U+0009 to U+000D and
    U+0020; U+00A0; U+1680, U+2000 to U+200A, U+2028, U+2029, U+202F,
    U+205F, U+3000 and U+FEFF. *)
Definition is_white_space (c : Ascii.ascii) : bool :=
  let n := Ascii.nat_of_ascii c in
  ((9 <=? n)%nat && (n <=? 13)%nat) || (n =? 32)%nat.

Definition is_white_space_2 (c0 c1 : Ascii.ascii) : bool :=
  (Ascii.nat_of_ascii c0 =? 194)%nat && (Ascii.nat_of_ascii c1 =? 160)%nat.

Definition is_white_space_3 (c0 c1 c2 : Ascii.ascii) : bool :=
  let a := Ascii.nat_of_ascii c0 in
  let b := Ascii.nat_of_ascii c1 in
  let c := Ascii.nat_of_ascii c2 in
  ((a =? 225)%nat && (b =? 154)%nat && (c =? 128)%nat) ||
  ((a =? 226)%nat && (b =? 128)%nat &&
     (((128 <=? c)%nat && (c <=? 138)%nat) || (c =? 168)%nat || (c =? 169)%nat ||
      (c =? 175)%nat)) ||
  ((a =? 226)%nat && (b =? 129)%nat && (c =? 159)%nat) ||
  ((a =? 227)%nat && (b =? 128)%nat && (c =? 128)%nat) ||
  ((a =? 239)%nat && (b =? 187)%nat && (c =? 191)%nat).

Fixpoint trimStart (s : string) : string :=
  match s with
  | EmptyString => EmptyString
  | String c r =>
      if is_white_space c then trimStart r
      else
        match r with
        | EmptyString => s
        | String c1 r1 =>
            if is_white_space_2 c c1 then trimStart r1
            else
              match r1 with
              | EmptyString => s
              | String c2 r2 => if is_white_space_3 c c1 c2 then trimStart r2 else s
              end
        end
  end.

(** The string up to the place from which only white space follows. *)
Fixpoint trimEnd (s : string) : string :=
  match s with
  | EmptyString => EmptyString
  | String c r => if decide (trimStart s = "") then "" else String c (trimEnd r)
  end.

Definition trim (s : string) : string := trimEnd (trimStart s).

(** *** The tools over a key/value store ([mset]/[mget]) *)

Module Kv.

(** The two methods of the key/value store these tools call. Either may
    throw; [mget] returns one value per key, [undefined] for a key nobody
    wrote. *)
Class KeyValueStore (St : Type) := {
  store_mset : list (string * Story) → St → Exn + St;
  store_mget : list string → St → Exn + list (option Story)
}.

Section Tools.
Context {St : Type} `{KeyValueStore St}.

(** [await store.mset(pairs)] *)
Definition mset (pairs : list (string * Story)) : ToolM St unit :=
  fun s =>
    match store_mset pairs s with
    | inl e => (inl e, s, map (fun p : string * Story => EvPut [] p.1 p.2) pairs)
    | inr s' => (inr tt, s', map (fun p : string * Story => EvPut [] p.1 p.2) pairs)
    end.

(** [await store.mget(keys)] *)
Definition mget (keys : list string) : ToolM St (list (option Story)) :=
  fun s =>
    match store_mget keys s with
    | inl e => (inl e, s, map (EvGet []) keys)
    | inr r => (inr r, s, map (EvGet []) keys)
    end.

Definition saveUserStory (input : JsObj) (config : Config.t) : ToolM St string :=
  match Config.store config with
  | None => throw (Error "Store is required")
  | Some _ =>
      let userId := opt_get (Config.configurable config) "userId" in
      if negb (truthy userId) then throw (Error "userId is required")
      else
        mset [ (js_to_string userId +:+ "_user",
                {| content := opt_get (Some input) "story" |}) ] ;;;
        ret "I understand your perspective. I'll remember this for any future counsel."
  end.

Definition saveWifeStory (input : JsObj) (config : Config.t) : ToolM St string :=
  match Config.store config with
  | None => throw (Error "Store is required")
  | Some _ =>
      let userId := opt_get (Config.configurable config) "userId" in
      if negb (truthy userId) then throw (Error "userId is required")
      else
        mset [ (js_to_string userId +:+ "_wife",
                {| content := opt_get (Some input) "story" |}) ] ;;;
        ret "I understand her perspective on this situation."
  end.

(** [stories[i]?.content] *)
Definition story_content (stories : list (option Story)) (i : nat) : JsVal :=
  match stories !! i with
  | Some (Some st) => content st
  | _ => JUndefined
  end.

Definition getBothStories (input : JsObj) (config : Config.t) : ToolM St string :=
  match Config.store config with
  | None => throw (Error "Store is required")
  | Some _ =>
      let userId := opt_get (Config.configurable config) "userId" in
      if negb (truthy userId) then throw (Error "userId is required")
      else
        stories <~ mget [ js_to_string userId +:+ "_user";
                          js_to_string userId +:+ "_wife" ] ;;
        let userStory := story_content stories 0 in
        let wifeStory := story_content stories 1 in
        let result := "📜 BOTH PERSPECTIVES:\n\n" in
        let result :=
          if truthy userStory
          then result +:+ "👤 **User's Grievance:** " +:+ js_to_string userStory +:+ "\n\n"
          else result +:+ "👤 **User's Grievance:** No story shared yet\n\n" in
        let result :=
          if truthy wifeStory
          then result +:+ "👩 **Wife's Perspective:** " +:+ js_to_string wifeStory
          else result +:+ "👩 **Wife's Perspective:** No story shared yet" in
        ret result
  end.
End Tools.
End Kv.

(** *** The interactive class *)

Module Cli.

Section Tools.
Context {St : Type} `{BaseStore St}.

Definition saveUserStory (input : JsObj) (config : Config.t) : ToolM St string :=
  match Config.store config with
  | None => throw (Error "store is required when compiling the graph")
  | Some _ =>
      let userId := opt_get (Config.configurable config) "userId" in
      if negb (truthy userId) then throw (Error "userId is required in the config")
      else
        try_catch
          (put ["stories"] (js_to_string userId +:+ "_user")
               {| content := opt_get (Some input) "story" |})
          (fun storeError => throw storeError) ;;;
        ret "I understand your perspective. I'll remember this for any future counsel."
  end.

Definition createUserModeTools : list (Tool St) :=
  [ {| func := saveUserStory;
       name := "save_user_story";
       description := "Save important details about your grievances and perspective";
       schema := ObjStory |} ].

Definition saveWifeStory (input : JsObj) (config : Config.t) : ToolM St string :=
  match Config.store config with
  | None => throw (Error "store is required when compiling the graph")
  | Some _ =>
      let userId := opt_get (Config.configurable config) "userId" in
      if negb (truthy userId) then throw (Error "userId is required in the config")
      else
        try_catch
          (put ["stories"] (js_to_string userId +:+ "_wife")
               {| content := opt_get (Some input) "story" |})
          (fun storeError => throw storeError) ;;;
        ret "I understand her perspective on this situation."
  end.

Definition createWifeModeTools : list (Tool St) :=
  [ {| func := saveWifeStory;
       name := "save_wife_story";
       description := "Save important details about the wife's perspective and grievances";
       schema := ObjStory |} ].

Definition getBothStories (input : JsObj) (config : Config.t) : ToolM St string :=
  match Config.store config with
  | None => throw (Error "store is required when compiling the graph")
  | Some _ =>
      let userId := opt_get (Config.configurable config) "userId" in
      if negb (truthy userId) then throw (Error "userId is required in the config")
      else
        userStory <~ try_catch (get ["stories"] (js_to_string userId +:+ "_user"))
                               (fun error => ret None) ;;
        wifeStory <~ try_catch (get ["stories"] (js_to_string userId +:+ "_wife"))
                               (fun error => ret None) ;;
        let result := "📜 BOTH PERSPECTIVES:\n\n" in
        let result :=
          if truthy (item_content userStory)
          then result +:+ "👤 **User's Grievance:** "
                      +:+ js_to_string (item_content userStory) +:+ "\n\n"
          else result +:+ "👤 **User's Grievance:** No story shared yet\n\n" in
        let result :=
          if truthy (item_content wifeStory)
          then result +:+ "👩 **Wife's Perspective:** "
                      +:+ js_to_string (item_content wifeStory)
          else result +:+ "👩 **Wife's Perspective:** No story shared yet" in
        ret result
  end.

Definition createSolomonModeTools : list (Tool St) :=
  [ {| func := getBothStories;
       name := "get_both_stories";
       description := "Retrieve both the user's grievances and wife's perspective to render judgment";
       schema := ObjEmpty |} ].
End Tools.

(** The closure [getPromptFunction(mode)] returns: the templates are those
    of the deployment class, and the ids are interpolated as they are. *)
Definition getPromptFunction (mode : string) (state : State.t) (config : Config.t)
  : list Message.t :=
  let userId := opt_get (Config.configurable config) "userId" in
  let sessionId := opt_get (Config.configurable config) "sessionId" in
  let dynamicSystemMsg :=
    systemMessage mode +:+ LF +:+ LF +:+
    "Session Info: You are in " +:+ mode +:+ " mode for user " +:+ js_to_string userId +:+
    " in session " +:+ js_to_string sessionId +:+ "." in
  {| Message.role := "system"; Message.content := dynamicSystemMsg |}
    :: State.messages state.

(** The object: [sessionId] is the result of [uuidv4()]. *)
Record t (St : Type) := {
  currentMode : string;
  sessionId : string;
  userId : string;
  agents : gmap string (ReactAgent St);
  isRunning : bool;
  checkpointer : gmap string (list Message.t);
  store : St
}.
Arguments currentMode {St} _.
Arguments sessionId {St} _.
Arguments userId {St} _.
Arguments agents {St} _.
Arguments isRunning {St} _.
Arguments checkpointer {St} _.
Arguments store {St} _.

(** What the user answers to the prompts, in order: the messages typed
    at the input prompt and the values chosen in the mode list. *)
Record Answers := {
  typed : list string;
  chosen : list string
}.

(** A turn [chat] handed to an agent: the mode of the agent, the message,
    the configuration, whether the agent returned, and the tool calls
    made. *)
Record Turn := {
  turn_mode : string;
  turn_message : string;
  turn_config : Config.t;
  turn_ok : bool;
  turn_calls : list ToolCallRecord
}.

(** How a call of [chat] ends: it returned at once for want of an agent,
    it is left waiting at a prompt nobody answers, or it returned. *)
Inductive ChatResult (St : Type) :=
  | NoAgent
  | Blocked (self : t St)
  | Returned (self : t St) (rest : Answers) (turns : list Turn).
Arguments NoAgent {St}.
Arguments Blocked {St} _.
Arguments Returned {St} _ _ _.

(** How the program ends: the process exited during initialization, the
    loop ended, the program waits at a prompt for an answer that does not
    come, or the loop spins without ever prompting again. [OutOfFuel] is
    the bound of the model, which [start] never reaches. *)
Inductive Outcome (St : Type) :=
  | ProcessExit (code : nat)
  | Finished (self : t St)
  | Waiting (self : t St)
  | Spinning (self : t St)
  | OutOfFuel.
Arguments ProcessExit {St} _.
Arguments Finished {St} _.
Arguments Waiting {St} _.
Arguments Spinning {St} _.
Arguments OutOfFuel {St}.

Section Class.
Context {St : Type} `{BaseStore St}.

Definition constructor (uuid : string) (fresh : St) : t St :=
  {| currentMode := MODES.USER;
     sessionId := uuid;
     userId := "user_1";
     agents := ∅;
     isRunning := false;
     checkpointer := ∅;
     store := fresh |}.

Definition createReactAgent (model : ChatModel) (ts : list (Tool St)) (mode : string)
  : ReactAgent St :=
  {| llm := model;
     tools := ts;
     checkpointSaver := true;
     agent_store := Some SharedStore;
     prompt := getPromptFunction mode |}.

(** [initialize()]: [None] when the process exits with code 1. *)
Definition initialize (proc : Process) (self : t St) : option (t St) :=
  if negb (truthy (OPENAI_API_KEY proc)) then None
  else
    match initChatModel proc "gpt-4o" "openai" with
    | inl error => None
    | inr model =>
        Some {| currentMode := currentMode self;
                sessionId := sessionId self;
                userId := userId self;
                agents :=
                  <[MODES.SOLOMON := createReactAgent model createSolomonModeTools MODES.SOLOMON]>
                  (<[MODES.WIFE := createReactAgent model createWifeModeTools MODES.WIFE]>
                  (<[MODES.USER := createReactAgent model createUserModeTools MODES.USER]>
                     (agents self)));
                isRunning := isRunning self;
                checkpointer := checkpointer self;
                store := store self |}
    end.

Definition set_isRunning (self : t St) (b : bool) : t St :=
  {| currentMode := currentMode self;
     sessionId := sessionId self;
     userId := userId self;
     agents := agents self;
     isRunning := b;
     checkpointer := checkpointer self;
     store := store self |}.

Definition set_currentMode (self : t St) (m : string) : t St :=
  {| currentMode := m;
     sessionId := sessionId self;
     userId := userId self;
     agents := agents self;
     isRunning := isRunning self;
     checkpointer := checkpointer self;
     store := store self |}.

(** [switchMode()]: [None] when nobody answers the list prompt. *)
Definition switchMode (self : t St) (answers : Answers) : option (t St * Answers) :=
  match chosen answers with
  | [] => None
  | selectedMode :: rest =>
      let answers := {| typed := typed answers; chosen := rest |} in
      if decide (selectedMode = "exit")
      then Some (set_isRunning self false, answers)
      else Some (set_currentMode self selectedMode, answers)
  end.

(** The [config] of a turn. *)
Definition chat_config (self : t St) : Config.t :=
  {| Config.store := None;
     Config.configurable :=
       Some (list_to_map
               [ ("thread_id", JString (currentMode self +:+ "_" +:+ sessionId self));
                 ("checkpoint_ns", JString "");
                 ("userId", JString (userId self));
                 ("sessionId", JString (sessionId self)) ]) |}.

(** [chat()] *)
Definition chat (proc : Process) (self : t St) (answers : Answers) : ChatResult St :=
  match agents self !! currentMode self with
  | None => NoAgent
  | Some ag =>
      match typed answers with
      | [] => Blocked self
      | message :: rest =>
          let answers := {| typed := rest; chosen := chosen answers |} in
          if decide (toLowerCase message = "exit")
          then Returned (set_isRunning self false) answers []
          else if decide (toLowerCase message = "menu")
          then match switchMode self answers with
               | None => Blocked self
               | Some (self', answers') => Returned self' answers' []
               end
          else if decide (trim message = "")
          then Returned self answers []
          else
            let config := chat_config self in
            match agent_invoke (recursionLimit proc) ag
                    {| State.messages :=
                         [ {| Message.role := "user"; Message.content := message |} ] |}
                    config
                    {| checkpoints := checkpointer self; facts := store self |} with
            | (response, w, calls) =>
                Returned
                  {| currentMode := currentMode self;
                     sessionId := sessionId self;
                     userId := userId self;
                     agents := agents self;
                     isRunning := isRunning self;
                     checkpointer := checkpoints w;
                     store := facts w |}
                  answers
                  [ {| turn_mode := currentMode self;
                       turn_message := message;
                       turn_config := config;
                       turn_ok := match response with inl _ => false | inr _ => true end;
                       turn_calls := calls |} ]
            end
      end
  end.

(** The main chat loop of [start]:
    [while (this.isRunning) { if (this.currentMode) await this.chat(); }] *)
Fixpoint chat_loop (fuel : nat) (proc : Process) (self : t St) (answers : Answers)
  : Outcome St * list Turn :=
  match fuel with
  | O => (OutOfFuel, [])
  | Datatypes.S n =>
      if isRunning self then
        if decide (currentMode self = "") then (Spinning self, [])
        else
          match chat proc self answers with
          | NoAgent => (Spinning self, [])
          | Blocked self' => (Waiting self', [])
          | Returned self' answers' turns =>
              match chat_loop n proc self' answers' with
              | (outcome, turns') => (outcome, (turns ++ turns')%list)
              end
          end
      else (Finished self, [])
  end.

(** [start()] *)
Definition start (proc : Process) (self : t St) (answers : Answers)
  : Outcome St * list Turn :=
  let self := set_isRunning self true in
  match switchMode self answers with
  | None => (Waiting self, [])
  | Some (self', answers') =>
      chat_loop (Datatypes.S (length (typed answers'))) proc self' answers'
  end.

(** [main()] *)
Definition main (proc : Process) (uuid : string) (fresh : St) (answers : Answers)
  : Outcome St * list Turn :=
  let counselor := constructor uuid fresh in
  match initialize proc counselor with
  | None => (ProcessExit 1, [])
  | Some counselor => start proc counselor answers
  end.
End Class.
End Cli.

(** ** Further definitions used to state properties *)

(** An agent object as [invoke] and [setMode] can leave it: the current
    mode is one of the three, and once initialized every mode has its
    agent. *)
Definition ready {St} (self : MarriageCounselorAgent St) : Prop :=
  currentMode self ∈ MODES.values ∧
  (initialized self = true → ∀ m, m ∈ MODES.values → is_Some (agents self !! m)).

(** The errors of [initialize] and of the engine. *)
Definition init_or_engine_error (e : Exn) : Prop :=
  e = Error "Please set OPENAI_API_KEY or ANTHROPIC_API_KEY in your environment" ∨
  (∃ m, e = Error ("Failed to initialize agent: " +:+ m)) ∨
  e = Error "Received tool input did not match expected schema" ∨
  (∃ m, e = EngineFault m).

(** The read policy on one executed tool call [(mode, call)]: a read of
    the store comes from Solomon's agent running [get_both_stories]. *)
Definition reader_ok (entry : string * ToolCallRecord) : Prop :=
  ∀ ns key, EvGet ns key ∈ tc_events entry.2 →
    entry.1 = MODES.SOLOMON ∧ tc_name entry.2 = "get_both_stories".

(** The wiring of the interactive class. *)
Definition cli_agents_ok {St} `{BaseStore St} (self : Cli.t St) : Prop :=
  ∀ m ag, Cli.agents self !! m = Some ag →
    agent_store ag = Some SharedStore ∧
    ((m = MODES.USER ∧ tools ag = Cli.createUserModeTools) ∨
     (m = MODES.WIFE ∧ tools ag = Cli.createWifeModeTools) ∨
     (m = MODES.SOLOMON ∧ tools ag = Cli.createSolomonModeTools)).

(** What the loop leaves of an outcome when the engine's doings are put
    aside: its kind, the mode and the running flag. *)
Definition outcome_control {St} (o : Cli.Outcome St) : option (nat * string * bool) :=
  match o with
  | Cli.ProcessExit code => Some (0, "", false)
  | Cli.Finished self => Some (1, Cli.currentMode self, Cli.isRunning self)
  | Cli.Waiting self => Some (2, Cli.currentMode self, Cli.isRunning self)
  | Cli.Spinning self => Some (3, Cli.currentMode self, Cli.isRunning self)
  | Cli.OutOfFuel => None
  end.

(** A key/value store in memory, and one that is down. *)
Record KvMemory := { kv_data : gmap string Story; kv_down : bool }.

#[global] Instance KvMemory_KeyValueStore : Kv.KeyValueStore KvMemory := {
  Kv.store_mset pairs s :=
    if kv_down s then inl (StoreFault "store unavailable")
    else inr {| kv_data := list_to_map pairs ∪ kv_data s; kv_down := false |};
  Kv.store_mget keys s :=
    if kv_down s then inl (StoreFault "store unavailable")
    else inr (map (fun k => kv_data s !! k) keys)
}.

(** What the interactive class keeps fixed during a session. *)
Definition cli_inv {St} `{BaseStore St} (uuid : string) (self : Cli.t St) : Prop :=
  Cli.sessionId self = uuid ∧ Cli.userId self = "user_1" ∧ cli_agents_ok self.

(** A turn of the interactive class runs under the identity of the
    session and on the thread of the persona that handles it, and its
    message is neither a command nor blank. *)
Definition turn_isolated (uuid : string) (t : Cli.Turn) : Prop :=
  Cli.turn_mode t ∈ MODES.values ∧
  opt_get (Config.configurable (Cli.turn_config t)) "thread_id" =
    JString (Cli.turn_mode t +:+ "_" +:+ uuid) ∧
  opt_get (Config.configurable (Cli.turn_config t)) "userId" = JString "user_1" ∧
  opt_get (Config.configurable (Cli.turn_config t)) "sessionId" = JString uuid ∧
  toLowerCase (Cli.turn_message t) ≠ "exit" ∧
  toLowerCase (Cli.turn_message t) ≠ "menu" ∧
  trim (Cli.turn_message t) ≠ "" ∧
  ∀ history,
    Cli.getPromptFunction (Cli.turn_mode t) {| State.messages := history |}
                          (Cli.turn_config t) =
      {| Message.role := "system";
         Message.content :=
           systemMessage (Cli.turn_mode t) +:+ LF +:+ LF +:+
           session_info (Cli.turn_mode t) "user_1" uuid |} :: history.

(** The store accesses of a turn of the interactive class, by the persona
    that handles it. *)
Definition turn_store_policy (t : Cli.Turn) : Prop :=
  ∀ call ev, call ∈ Cli.turn_calls t → ev ∈ tc_events call →
    (Cli.turn_mode t = MODES.USER ∧ tc_name call = "save_user_story" ∧
       ∃ v, ev = EvPut ["stories"] "user_1_user" v) ∨
    (Cli.turn_mode t = MODES.WIFE ∧ tc_name call = "save_wife_story" ∧
       ∃ v, ev = EvPut ["stories"] "user_1_wife" v) ∨
    (Cli.turn_mode t = MODES.SOLOMON ∧ tc_name call = "get_both_stories" ∧
       (ev = EvGet ["stories"] "user_1_user" ∨ ev = EvGet ["stories"] "user_1_wife")).

(** Two objects of the interactive class that agree on what steers the
    loop: the mode, the running flag and the modes that have an agent. *)
Definition cli_same_control {St} (a b : Cli.t St) : Prop :=
  Cli.currentMode a = Cli.currentMode b ∧
  Cli.isRunning a = Cli.isRunning b ∧
  ∀ m, is_Some (Cli.agents a !! m) ↔ is_Some (Cli.agents b !! m).

(** The persona and the message of a turn. *)
Definition turn_control (t : Cli.Turn) : string * string :=
  (Cli.turn_mode t, Cli.turn_message t).

(** The combined text of the interactive variants. *)
Definition cli_combined_text (user wife : string) : string :=
  "📜 BOTH PERSPECTIVES:\n\n" +:+
  "👤 **User's Grievance:** " +:+ user +:+ "\n\n" +:+
  "👩 **Wife's Perspective:** " +:+ wife.

(** One side of the combined text of the key/value variant. *)
Definition kv_side_text (o : option Story) : string :=
  match o with
  | Some {| content := JString a |} =>
      if decide (a = "") then "No story shared yet" else a
  | _ => "No story shared yet"
  end.

(** Every registered agent composes its instruction with the prompt
    function of its own mode, as [initialize] builds it. *)
Definition prompts_ok {St} (self : MarriageCounselorAgent St) : Prop :=
  ∀ m ag, agents self !! m = Some ag → prompt ag = getPromptFunction m.

(** The caller's [config] with one entry of [configurable] set:
    [{ ...config, configurable: { ...config.configurable, [k]: v } }]. *)
Definition set_configurable (config : Config.t) (k : string) (v : JsVal) : Config.t :=
  {| Config.store := Config.store config;
     Config.configurable := Some (<[k := v]> (default ∅ (Config.configurable config))) |}.

(** A chat model that answers every instruction with [text]. *)
Definition answering (text : string) : ChatModel := fun _ => Answer text.

(** ** String facts *)

(** Case mapping and white space beyond ASCII: the long s and the
    dotless i give letters of the mode keys, the Kelvin sign gives no
    letter of [exit] or [menu], and a no-break space, an ideographic space
    and a line separator are trimmed like a blank. *)
Example toUpperCase_beyond_ascii :
  toUpperCase ("u" +:+ of_bytes [197; 191] +:+ "er") = "USER" ∧
  toUpperCase ("w" +:+ of_bytes [196; 177] +:+ "fe") = "WIFE" ∧
  toUpperCase (of_bytes [197; 191] +:+ "olomon") = "SOLOMON" ∧
  toUpperCase ("Stra" +:+ of_bytes [195; 159] +:+ "e") = "STRASSE" ∧
  toUpperCase ("wi" +:+ of_bytes [239; 172; 128] +:+ "e") = "WIFFE" ∧
  toUpperCase ("caf" +:+ of_bytes [195; 169]) = "CAF" +:+ of_bytes [195; 169].
Proof. repeat split. Qed.

Example toLowerCase_beyond_ascii :
  toLowerCase "Exit" = "exit" ∧ toLowerCase " MENU" = " menu" ∧
  toLowerCase (of_bytes [226; 132; 170] +:+ "M") = "km".
Proof. repeat split. Qed.

Example trim_beyond_ascii :
  trim ("  hi there " +:+ LF) = "hi there" ∧
  trim (of_bytes [194; 160] +:+ " " +:+ of_bytes [227; 128; 128; 226; 128; 168]) = "" ∧
  trim (of_bytes [226; 128; 131] +:+ "a" +:+ of_bytes [194; 160] +:+ "b" +:+
        of_bytes [239; 187; 191]) = "a" +:+ of_bytes [194; 160] +:+ "b" ∧
  trim (of_bytes [195; 160]) = of_bytes [195; 160].
Proof. repeat split. Qed.

Lemma list_ascii_app (a b : string) :
  String.list_ascii_of_string (a +:+ b) = (String.list_ascii_of_string a ++ String.list_ascii_of_string b)%list.
Proof. induction a as [|c a IH]; simpl; [done | by rewrite IH]. Qed.

Lemma list_ascii_inj (a b : string) :
  String.list_ascii_of_string a = String.list_ascii_of_string b → a = b.
Proof.
  intros E. rewrite <- (String.string_of_list_ascii_of_string a), E.
  apply String.string_of_list_ascii_of_string.
Qed.

(** Two strings that end in suffixes of the same length agree on both
    parts. *)
Lemma append_inj_same_length (a b x y : string) :
  String.length x = String.length y → a +:+ x = b +:+ y → a = b ∧ x = y.
Proof.
  intros Hlen E. apply (f_equal String.list_ascii_of_string) in E.
  rewrite !list_ascii_app in E.
  assert (Hl : length (String.list_ascii_of_string x) = length (String.list_ascii_of_string y)).
  { clear E. revert y Hlen. induction x as [|c x IH]; intros [|d y]; simpl; try done.
    intros [= Hxy]. f_equal. by apply IH. }
  destruct (app_inj_2 _ _ _ _ Hl E) as [E1 E2].
  split; by apply list_ascii_inj.
Qed.

Lemma append_inj_l (a b x : string) : a +:+ x = b +:+ x → a = b.
Proof. intros E. by destruct (append_inj_same_length a b x x eq_refl E). Qed.

Lemma user_key_not_wife_key (u u' : string) : u +:+ "_user" ≠ u' +:+ "_wife".
Proof.
  intros E. by destruct (append_inj_same_length u u' "_user" "_wife" eq_refl E).
Qed.

Lemma js_or_nonempty (s d : string) : s ≠ "" → js_or (JString s) d = s.
Proof. intros Hs. unfold js_or. by case_decide. Qed.

Lemma js_or_falsy (v : JsVal) (d : string) : truthy v = false → js_or v d = d.
Proof. destruct v as [| |s]; simpl; try done. by case_decide. Qed.

Lemma js_or_truthy (v : JsVal) (d : string) : truthy v = true → js_or v d = js_to_string v.
Proof. destruct v as [| |s]; simpl; try done. by case_decide. Qed.

(** ** The mode table *)

Lemma MODES_lookup (k : string) :
  MODES.table !! k =
    if decide (k = "USER") then Some MODES.USER
    else if decide (k = "WIFE") then Some MODES.WIFE
    else if decide (k = "SOLOMON") then Some MODES.SOLOMON
    else None.
Proof.
  unfold MODES.table. simpl.
  repeat (rewrite lookup_insert; case_decide; subst;
          [ repeat case_decide; done || congruence | ]).
  rewrite lookup_empty. repeat case_decide; done || congruence.
Qed.

Lemma MODES_lookup_Some (k m : string) :
  MODES.table !! k = Some m →
  (k, m) ∈ [("USER", MODES.USER); ("WIFE", MODES.WIFE); ("SOLOMON", MODES.SOLOMON)].
Proof.
  rewrite MODES_lookup. repeat case_decide; intros [= <-]; subst; set_solver.
Qed.

Lemma MODES_lookup_None (k : string) : MODES.table !! k = None ↔ k ∉ MODES.keys.
Proof.
  rewrite MODES_lookup. unfold MODES.keys.
  rewrite !elem_of_cons, elem_of_nil.
  destruct (decide (k = "USER")), (decide (k = "WIFE")), (decide (k = "SOLOMON"));
    intuition (discriminate || congruence).
Qed.

(** ** Mode switching *)

(** C10: [setMode(m)] returns true and sets [currentMode] to the
    corresponding persona exactly when [m], upper-cased, is one of the three
    mode keys USER, WIFE, SOLOMON; for any other string it returns false
    and leaves the object unchanged. It is a total function on strings:
    no input makes it throw. *)
Theorem setMode_spec {St} (self : MarriageCounselorAgent St) (mode : string) :
  ((setMode self mode).1 = true ↔ toUpperCase mode ∈ MODES.keys) ∧
  (toUpperCase mode = "USER" →
     setMode self mode = (true, set_currentMode self MODES.USER)) ∧
  (toUpperCase mode = "WIFE" →
     setMode self mode = (true, set_currentMode self MODES.WIFE)) ∧
  (toUpperCase mode = "SOLOMON" →
     setMode self mode = (true, set_currentMode self MODES.SOLOMON)) ∧
  (toUpperCase mode ∉ MODES.keys → setMode self mode = (false, self)).
Proof.
  unfold setMode, MODES.keys. rewrite MODES_lookup.
  rewrite !elem_of_cons, elem_of_nil.
  destruct (decide (toUpperCase mode = "USER")) as [->|],
           (decide (toUpperCase mode = "WIFE")) as [E|],
           (decide (toUpperCase mode = "SOLOMON")) as [E'|];
    try rewrite E; try rewrite E'; simpl;
    intuition (discriminate || congruence).
Qed.

Lemma setMode_spec_witness :
  toUpperCase "wife" = "WIFE" ∧
  setMode constructor "wife" = (true, set_currentMode constructor MODES.WIFE).
Proof.
  split; [reflexivity |].
  apply (proj1 (proj2 (proj2 (setMode_spec constructor "wife")))). reflexivity.
Defined.

Example setMode_unknown : setMode constructor "judge" = (false, constructor).
Proof. reflexivity. Qed.

(** ** Thread keys *)

Lemma mergedConfig_lookup {St} (self : MarriageCounselorAgent St) (config : Config.t)
    (k : string) :
  opt_get (Config.configurable (mergedConfig self config)) k =
    match Config.configurable config ≫= (.!! k) with
    | Some v => v
    | None => default JUndefined (defaultConfigurable self config !! k)
    end.
Proof.
  destruct config as [st [c|]]; unfold mergedConfig, spread, opt_get; simpl; [| done].
  rewrite lookup_union.
  by destruct (c !! k), (defaultConfigurable _ _ !! k).
Qed.

Lemma defaultConfigurable_thread_id {St} (self : MarriageCounselorAgent St) config :
  defaultConfigurable self config !! "thread_id" =
    Some (JString (threadKey (currentMode self)
                     (opt_get (Config.configurable config) "sessionId"))).
Proof. reflexivity. Qed.

Lemma defaultConfigurable_userId {St} (self : MarriageCounselorAgent St) config :
  defaultConfigurable self config !! "userId" =
    Some (JString (js_or (opt_get (Config.configurable config) "userId") "default_user")).
Proof. reflexivity. Qed.

Lemma defaultConfigurable_sessionId {St} (self : MarriageCounselorAgent St) config :
  defaultConfigurable self config !! "sessionId" =
    Some (JString (js_or (opt_get (Config.configurable config) "sessionId")
                     "default_session")).
Proof. reflexivity. Qed.

Lemma mergedConfig_thread_id {St} (self : MarriageCounselorAgent St) (config : Config.t) :
  opt_get (Config.configurable (mergedConfig self config)) "thread_id" =
    match Config.configurable config ≫= (.!! "thread_id") with
    | Some v => v
    | None => JString (threadKey (currentMode self)
                         (opt_get (Config.configurable config) "sessionId"))
    end.
Proof.
  rewrite mergedConfig_lookup.
  destruct (Config.configurable config ≫= (.!! "thread_id")); [done |].
  by rewrite defaultConfigurable_thread_id.
Qed.

(** C9: when [invoke] merges the two configurations, a [thread_id] the
    caller supplies under [configurable] takes precedence over the derived
    key [`${currentMode}_${sessionId}`], whatever the current mode; only a
    caller that passes none gets the derived key. *)
Theorem caller_thread_id_takes_precedence {St} (self : MarriageCounselorAgent St)
    (config : Config.t) :
  match Config.configurable config ≫= (.!! "thread_id") with
  | Some v =>
      opt_get (Config.configurable (mergedConfig self config)) "thread_id" = v
  | None =>
      opt_get (Config.configurable (mergedConfig self config)) "thread_id" =
        JString (threadKey (currentMode self)
                   (opt_get (Config.configurable config) "sessionId"))
  end.
Proof.
  rewrite mergedConfig_thread_id.
  by destruct (Config.configurable config ≫= (.!! "thread_id")).
Qed.

(** Two personas of one session share the caller's thread. *)
Example caller_thread_id_shared :
  let config := with_configurable
                  {[ "thread_id" := JString "t1"; "sessionId" := JString "s1" ]} in
  opt_get (Config.configurable (mergedConfig (set_currentMode constructor MODES.USER) config))
          "thread_id" = JString "t1" ∧
  opt_get (Config.configurable (mergedConfig (set_currentMode constructor MODES.WIFE) config))
          "thread_id" = JString "t1".
Proof. split; vm_compute; reflexivity. Qed.

Lemma threadKey_persona_inj (p1 p2 : string) (s1 s2 : JsVal) :
  p1 ∈ MODES.values → p2 ∈ MODES.values →
  threadKey p1 s1 = threadKey p2 s2 →
  p1 = p2 ∧ js_or s1 "default" = js_or s2 "default".
Proof.
  unfold MODES.values, threadKey. rewrite !elem_of_cons, !elem_of_nil.
  intros [->|[->|[->|[]]]] [->|[->|[->|[]]]] E; try discriminate E;
    (split; [done |]);
    match type of E with
    | ?p +:+ _ = _ =>
        apply (String.app_inj p) in E; by injection E
    end.
Qed.

(** C2, as the code has it: thread keys of two different personas never
    coincide, in one session or across sessions; for one persona, two
    different non-empty session ids give different keys (an empty or absent
    session id is replaced by [default]); and the key [invoke] derives for
    a turn, used when the caller passes no [thread_id], is that of the
    persona handling the turn whenever the input names no other persona
    than the current one. A session id that is absent, null or empty gives
    the key of the session id [default]. *)
Theorem threadKey_injective :
  (∀ p1 p2 s, p1 ≠ p2 → threadKey p1 s ≠ threadKey p2 s) ∧
  (∀ p1 p2 s1 s2, p1 ∈ MODES.values → p2 ∈ MODES.values → p1 ≠ p2 →
     threadKey p1 s1 ≠ threadKey p2 s2) ∧
  (∀ p s1 s2, s1 ≠ "" → s2 ≠ "" → s1 ≠ s2 →
     threadKey p (JString s1) ≠ threadKey p (JString s2)) ∧
  (∀ St (self : MarriageCounselorAgent St) input config,
     Config.configurable config ≫= (.!! "thread_id") = None →
     resolve_mode self input = currentMode self →
     opt_get (Config.configurable (mergedConfig self config)) "thread_id" =
       JString (threadKey (resolve_mode self input)
                  (opt_get (Config.configurable config) "sessionId"))) ∧
  (∀ p s, truthy s = false → threadKey p s = threadKey p (JString "default")).
Proof.
  split; [| split; [| split; [| split]]].
  - intros p1 p2 s Hne E. apply Hne. unfold threadKey in E.
    by apply append_inj_l in E.
  - intros p1 p2 s1 s2 H1 H2 Hne E.
    by destruct (threadKey_persona_inj p1 p2 s1 s2 H1 H2 E).
  - intros p s1 s2 H1 H2 Hne E. unfold threadKey in E.
    apply (String.app_inj p) in E. apply (String.app_inj "_") in E.
    rewrite !js_or_nonempty in E by done. done.
  - intros St self input config Hnone Hmode.
    by rewrite mergedConfig_thread_id, Hnone, Hmode.
  - intros p s Hs. unfold threadKey. by rewrite (js_or_falsy _ _ Hs).
Qed.

Lemma threadKey_injective_witness :
  threadKey MODES.USER (JString "s1") ≠ threadKey MODES.WIFE (JString "s1") ∧
  threadKey MODES.USER (JString "s1") ≠ threadKey MODES.USER (JString "s2") ∧
  (let config := with_configurable {[ "sessionId" := JString "s1" ]} in
   opt_get (Config.configurable (mergedConfig constructor config)) "thread_id" =
     JString (threadKey (resolve_mode constructor (say JUndefined "hello"))
                (opt_get (Config.configurable config) "sessionId"))) ∧
  threadKey MODES.WIFE JUndefined = threadKey MODES.WIFE (JString "default").
Proof.
  destruct threadKey_injective as (Hp & _ & Hs & Hturn & Hdefault).
  split; [| split; [| split]].
  - apply Hp. discriminate.
  - apply Hs; discriminate.
  - apply (Hturn _ constructor (say JUndefined "hello")
                 (with_configurable {[ "sessionId" := JString "s1" ]}));
      reflexivity.
  - apply Hdefault. reflexivity.
Defined.

(** Counterexample to C2 as specified, in both halves: the empty session
    id and the session id [default] share a thread key; and a turn the
    input routes to the Advocate while the current mode is Solomon is run,
    and checkpointed, under Solomon's thread key. *)
Lemma threadKey_counterexample :
  (JString "" ≠ JString "default" ∧
   threadKey MODES.USER (JString "") = threadKey MODES.USER (JString "default")) ∧
  (let model := scripted [CallTool "save_user_story" (story_input "She overspent")] in
   let config := with_configurable {[ "sessionId" := JString "s1" ]} in
   let '(_, self, calls) :=
     invoke (demo_process model) constructor (say (JString "USER") "hi") config in
   map fst calls = [MODES.USER] ∧
   is_Some (checkpointer self !! threadKey MODES.SOLOMON (JString "s1")) ∧
   checkpointer self !! threadKey MODES.USER (JString "s1") = None).
Proof.
  split; [split; [discriminate | reflexivity] |].
  vm_compute. split; [reflexivity | split; [by eexists | reflexivity]].
Qed.

(** ** The tools, one call at a time *)

Lemma append_assoc (a b c : string) : (a +:+ b) +:+ c = a +:+ (b +:+ c).
Proof.
  induction a as [|x a IH]; [done |]. exact (f_equal (String x) IH).
Qed.

Section ToolFacts.
Context {St : Type} `{BaseStore St}.

Lemma saveUserStory_run (input : JsObj) (config : Config.t) (s : St) (h : StoreHandle) :
  Config.store config = Some h →
  saveUserStory input config s =
    let key := tool_userId config +:+ "_user" in
    let v := {| content := opt_get (Some input) "story" |} in
    match store_put ["stories"] key v s with
    | inl e => (inl e, s, [EvPut ["stories"] key v])
    | inr s' =>
        (inr "I understand your perspective. I'll remember this for any future counsel.",
         s', [EvPut ["stories"] key v])
    end.
Proof.
  intros Hs. unfold saveUserStory, tool_userId. rewrite Hs.
  unfold bind, try_catch, put, throw, ret. simpl.
  by destruct (store_put _ _ _ s).
Qed.

Lemma saveWifeStory_run (input : JsObj) (config : Config.t) (s : St) (h : StoreHandle) :
  Config.store config = Some h →
  saveWifeStory input config s =
    let key := tool_userId config +:+ "_wife" in
    let v := {| content := opt_get (Some input) "story" |} in
    match store_put ["stories"] key v s with
    | inl e => (inl e, s, [EvPut ["stories"] key v])
    | inr s' =>
        (inr "I understand her perspective on this situation.",
         s', [EvPut ["stories"] key v])
    end.
Proof.
  intros Hs. unfold saveWifeStory, tool_userId. rewrite Hs.
  unfold bind, try_catch, put, throw, ret. simpl.
  by destruct (store_put _ _ _ s).
Qed.

Lemma side_text_content (o : option Item) :
  (if truthy (item_content o) then js_to_string (item_content o)
   else "No story shared yet") = side_text o.
Proof.
  destruct o as [[[[| |a]]]|]; simpl; try done. by case_decide.
Qed.

Lemma getBothStories_run (input : JsObj) (config : Config.t) (s : St) (h : StoreHandle) :
  Config.store config = Some h →
  getBothStories input config s =
    (inr (combined_text (side_text (fetch s (tool_userId config +:+ "_user")))
                        (side_text (fetch s (tool_userId config +:+ "_wife")))),
     s,
     [EvGet ["stories"] (tool_userId config +:+ "_user");
      EvGet ["stories"] (tool_userId config +:+ "_wife")]).
Proof.
  intros Hs. unfold getBothStories, tool_userId, fetch. rewrite Hs.
  unfold bind, try_catch, get, ret, combined_text.
  rewrite <- !side_text_content.
  destruct (store_get _ (_ +:+ "_user") s) as [e1|o1],
           (store_get _ (_ +:+ "_wife") s) as [e2|o2]; simpl;
    repeat match goal with
           | |- context [truthy ?v] => destruct (truthy v)
           end;
    simpl; by rewrite ?append_assoc.
Qed.

(** Without a store in its [config], every tool throws before anything
    else happens. *)
Lemma tools_require_store (input : JsObj) (config : Config.t) (s : St) :
  Config.store config = None →
  let e := Error "store is required when compiling the graph" in
  saveUserStory input config s = (inl e, s, []) ∧
  saveWifeStory input config s = (inl e, s, []) ∧
  getBothStories input config s = (inl e, s, []).
Proof.
  intros Hs. unfold saveUserStory, saveWifeStory, getBothStories. by rewrite Hs.
Qed.
End ToolFacts.

(** ** The Arbiter's combined read *)

Lemma fetch_in_memory (s : InMemoryStore) (key : string) :
  fetch s key = (fun v => {| value := v |}) <$> data s !! (["stories"], key).
Proof. reflexivity. Qed.

Lemma side_text_nonempty (a : string) :
  a ≠ "" → side_text (Some {| value := {| content := JString a |} |}) = a.
Proof. intros Ha. simpl. by case_decide. Qed.

Lemma user_key_neq_wife_key (u : string) :
  (["stories"], u +:+ "_user") ≠ (["stories"], u +:+ "_wife").
Proof. intros [= E]. by apply user_key_not_wife_key in E. Qed.

Lemma story_input_story (a : string) : opt_get (Some (story_input a)) "story" = JString a.
Proof. unfold opt_get, story_input. by rewrite lookup_singleton_eq. Qed.

Lemma saveUserStory_in_memory (config : Config.t) (h : StoreHandle) (a : string)
    (s : InMemoryStore) :
  Config.store config = Some h →
  (saveUserStory (story_input a) config s).1.2 =
    {| data := <[(["stories"], tool_userId config +:+ "_user") :=
                   {| content := JString a |}]> (data s) |}.
Proof.
  intros Hs. rewrite (saveUserStory_run _ _ _ h Hs). simpl.
  by rewrite <- (story_input_story a).
Qed.

Lemma saveWifeStory_in_memory (config : Config.t) (h : StoreHandle) (a : string)
    (s : InMemoryStore) :
  Config.store config = Some h →
  (saveWifeStory (story_input a) config s).1.2 =
    {| data := <[(["stories"], tool_userId config +:+ "_wife") :=
                   {| content := JString a |}]> (data s) |}.
Proof.
  intros Hs. rewrite (saveWifeStory_run _ _ _ h Hs). simpl.
  by rewrite <- (story_input_story a).
Qed.

(** C5, as the code has it: bound to a store, the combined read never
    errors, whatever the store does, and leaves the store as it was; called
    before either side has written it reports both sides as not yet
    provided; after the two sides have written non-empty texts it returns
    both texts verbatim, the user side first and the opposing side second;
    and a side that is still missing is reported as not yet provided next
    to the text of the other. In general the text is made of the two
    sides as the store gives them at the time of the call, where a side
    that is absent, that the store fails to read, or whose stored text is
    empty, is reported as not yet provided, and a non-empty stored text is
    given as it is. *)
Theorem getBothStories_combined_read :
  (∀ St (B : BaseStore St) input config (s : St) h,
     Config.store config = Some h →
     ∃ text, getBothStories input config s =
               (inr text, s,
                [EvGet ["stories"] (tool_userId config +:+ "_user");
                 EvGet ["stories"] (tool_userId config +:+ "_wife")])) ∧
  (∀ input config h,
     Config.store config = Some h →
     (getBothStories input config empty_store).1.1 =
       inr (combined_text "No story shared yet" "No story shared yet")) ∧
  (∀ input config h (s : InMemoryStore) a b,
     Config.store config = Some h → a ≠ "" → b ≠ "" →
     let s1 := (saveUserStory (story_input a) config s).1.2 in
     let s2 := (saveWifeStory (story_input b) config s1).1.2 in
     (getBothStories input config s2).1.1 = inr (combined_text a b)) ∧
  (∀ input config h a,
     Config.store config = Some h → a ≠ "" →
     let s1 := (saveUserStory (story_input a) config empty_store).1.2 in
     (getBothStories input config s1).1.1 =
       inr (combined_text a "No story shared yet")) ∧
  (∀ input config h b,
     Config.store config = Some h → b ≠ "" →
     let s1 := (saveWifeStory (story_input b) config empty_store).1.2 in
     (getBothStories input config s1).1.1 =
       inr (combined_text "No story shared yet" b)) ∧
  (∀ St (B : BaseStore St) input config (s : St) h,
     Config.store config = Some h →
     (getBothStories input config s).1.1 =
       inr (combined_text (side_text (fetch s (tool_userId config +:+ "_user")))
                          (side_text (fetch s (tool_userId config +:+ "_wife"))))) ∧
  (side_text None = "No story shared yet" ∧
   side_text (Some {| value := {| content := JString "" |} |}) = "No story shared yet" ∧
   ∀ a, a ≠ "" → side_text (Some {| value := {| content := JString a |} |}) = a).
Proof.
  split; [| split; [| split; [| split; [| split; [| split]]]]].
  - intros St B input config s h Hs. eexists. by apply getBothStories_run with h.
  - intros input config h Hs. by rewrite (getBothStories_run _ _ _ h Hs).
  - intros input config h s a b Hs Ha Hb s1 s2.
    rewrite (getBothStories_run _ _ _ h Hs), !fetch_in_memory. subst s2 s1.
    rewrite (saveWifeStory_in_memory _ h _ _ Hs), (saveUserStory_in_memory _ h _ _ Hs).
    cbn [fst snd data].
    rewrite lookup_insert_eq.
    rewrite lookup_insert_ne by (apply not_eq_sym, user_key_neq_wife_key).
    rewrite lookup_insert_eq. cbn [fmap option_fmap option_map].
    by rewrite !side_text_nonempty.
  - intros input config h a Hs Ha s1.
    rewrite (getBothStories_run _ _ _ h Hs), !fetch_in_memory. subst s1.
    rewrite (saveUserStory_in_memory _ h _ _ Hs). cbn [fst snd data].
    rewrite lookup_insert_eq.
    rewrite lookup_insert_ne by apply user_key_neq_wife_key.
    unfold empty_store. cbn [data fmap option_fmap option_map].
    rewrite lookup_empty. cbn [fmap option_fmap option_map].
    by rewrite side_text_nonempty.
  - intros input config h b Hs Hb s1.
    rewrite (getBothStories_run _ _ _ h Hs), !fetch_in_memory. subst s1.
    rewrite (saveWifeStory_in_memory _ h _ _ Hs). cbn [fst snd data].
    rewrite lookup_insert_eq.
    rewrite lookup_insert_ne by (apply not_eq_sym, user_key_neq_wife_key).
    unfold empty_store. cbn [data fmap option_fmap option_map].
    rewrite lookup_empty. cbn [fmap option_fmap option_map].
    by rewrite side_text_nonempty.
  - intros St B input config s h Hs. by rewrite (getBothStories_run _ _ _ h Hs).
  - split; [reflexivity |]. split; [reflexivity |]. apply side_text_nonempty.
Qed.

Lemma getBothStories_combined_read_witness :
  let config := tool_config "u1" in
  let s1 := (saveUserStory (story_input "She overspent on furniture") config empty_store).1.2 in
  let s2 := (saveWifeStory (story_input "I bought only what the house needed") config s1).1.2 in
  (getBothStories ∅ config s2).1.1 =
    inr (combined_text "She overspent on furniture" "I bought only what the house needed").
Proof.
  destruct getBothStories_combined_read as (_ & _ & Hboth & _).
  apply (Hboth ∅ (tool_config "u1") SharedStore empty_store);
    [reflexivity | discriminate | discriminate].
Defined.

(** Counterexample to C5 as specified: the Advocate's tool accepts and
    stores an empty text, and the combined read then reports the side as
    not yet provided instead of returning the stored text. Outside a
    compiled graph, with no store in its [config], the tool throws. *)
Lemma getBothStories_counterexample :
  (let config := tool_config "u1" in
   parse ObjStory (story_input "") = Some (story_input "") ∧
   let s1 := (saveUserStory (story_input "") config empty_store).1.2 in
   data s1 !! (["stories"], "u1_user") = Some {| content := JString "" |} ∧
   (getBothStories ∅ config s1).1.1 =
     inr (combined_text "No story shared yet" "No story shared yet") ∧
   combined_text "No story shared yet" "No story shared yet" ≠
     combined_text "" "No story shared yet") ∧
  (getBothStories ∅ no_config empty_store).1.1 =
    inl (Error "store is required when compiling the graph").
Proof.
  split; [| reflexivity].
  split; [reflexivity |]. split; [reflexivity |]. split; [reflexivity |].
  vm_compute. discriminate.
Qed.

(** End-to-end scenario A: only the Advocate has recorded a text. *)
Example scenario_A :
  let config := tool_config "u1" in
  let s1 := (saveUserStory (story_input "She overspent on furniture") config empty_store).1.2 in
  (getBothStories ∅ config s1).1.1 =
    inr (combined_text "She overspent on furniture" "No story shared yet").
Proof. reflexivity. Qed.

(** ** Store faults *)

(** C6, as the code has it: a store fault during the write of either
    save tool is rethrown unchanged to the caller of the tool, and the
    store is left as it was; a store fault during a read of the combined
    read is caught, and the side is reported as not yet provided. *)
Theorem store_faults_in_tools {St} `{BaseStore St} (input : JsObj) (config : Config.t)
    (s : St) (h : StoreHandle) (e : Exn) :
  Config.store config = Some h →
  let v := {| content := opt_get (Some input) "story" |} in
  let ukey := tool_userId config +:+ "_user" in
  let wkey := tool_userId config +:+ "_wife" in
  (store_put ["stories"] ukey v s = inl e →
     saveUserStory input config s = (inl e, s, [EvPut ["stories"] ukey v])) ∧
  (store_put ["stories"] wkey v s = inl e →
     saveWifeStory input config s = (inl e, s, [EvPut ["stories"] wkey v])) ∧
  (store_get ["stories"] ukey s = inl e →
     (getBothStories input config s).1.1 =
       inr (combined_text "No story shared yet" (side_text (fetch s wkey)))) ∧
  (store_get ["stories"] wkey s = inl e →
     (getBothStories input config s).1.1 =
       inr (combined_text (side_text (fetch s ukey)) "No story shared yet")).
Proof.
  intros Hs v ukey wkey. subst v ukey wkey. repeat split.
  - intros Hp. rewrite (saveUserStory_run _ _ _ h Hs). cbv zeta. by rewrite Hp.
  - intros Hp. rewrite (saveWifeStory_run _ _ _ h Hs). cbv zeta. by rewrite Hp.
  - intros Hg. rewrite (getBothStories_run _ _ _ h Hs). cbn [fst].
    unfold fetch at 1. by rewrite Hg.
  - intros Hg. rewrite (getBothStories_run _ _ _ h Hs). cbn [fst].
    unfold fetch at 2. by rewrite Hg.
Qed.

Lemma store_faults_in_tools_witness :
  saveUserStory (story_input "She overspent") (tool_config "u1") down_store =
    (inl (StoreFault "store unavailable"), down_store,
     [EvPut ["stories"] (tool_userId (tool_config "u1") +:+ "_user")
            {| content := opt_get (Some (story_input "She overspent")) "story" |}]).
Proof.
  apply (store_faults_in_tools (story_input "She overspent") (tool_config "u1")
           down_store SharedStore (StoreFault "store unavailable") eq_refl).
  reflexivity.
Defined.

(** Counterexample to C6 as specified: with the store down, both reads of
    the combined read throw, and the tool answers that no story was shared
    yet. *)
Lemma store_fault_counterexample :
  store_get ["stories"] "u1_user" down_store = inl (StoreFault "store unavailable") ∧
  store_get ["stories"] "u1_wife" down_store = inl (StoreFault "store unavailable") ∧
  getBothStories ∅ (tool_config "u1") down_store =
    (inr (combined_text "No story shared yet" "No story shared yet"), down_store,
     [EvGet ["stories"] "u1_user"; EvGet ["stories"] "u1_wife"]).
Proof. repeat split. Qed.

(** ** Overwriting writes *)


Example story_write_twice :
  let config := tool_config "u1" in
  let s1 := (saveUserStory (story_input "She overspent") config empty_store).1.2 in
  let s2 := (saveUserStory (story_input "She overspent") config s1).1.2 in
  s2 = s1 ∧ data s2 = {[ (["stories"], "u1_user") := {| content := JString "She overspent" |} ]}.
Proof. split; reflexivity. Qed.

(** ** The instruction composer *)

Lemma systemMessage_of_mode (mode : string) :
  mode ∈ MODES.values →
  ∃ template, systemMessages !! mode = Some template ∧ systemMessage mode = template.
Proof.
  unfold MODES.values. rewrite !elem_of_cons, elem_of_nil.
  intros [->|[->|[->|[]]]]; eexists; split; reflexivity.
Qed.

(** C7, as the code has it: for every persona, history and configuration,
    the composer produces one system message, made of the persona's static
    template and of a trailer naming the persona, the userId and the
    sessionId, followed by the whole history, in its order and unmodified;
    an empty or absent userId is named [default_user] and an empty or
    absent sessionId [default_session], and ids that are given and not
    empty are named as they are. *)
Theorem getPromptFunction_composes (mode : string) (history : list Message.t)
    (config : Config.t) :
  mode ∈ MODES.values →
  ∃ template,
    systemMessages !! mode = Some template ∧
    getPromptFunction mode {| State.messages := history |} config =
      {| Message.role := "system";
         Message.content :=
           template +:+ LF +:+ LF +:+
           session_info mode
             (js_or (opt_get (Config.configurable config) "userId") "default_user")
             (js_or (opt_get (Config.configurable config) "sessionId") "default_session") |}
      :: history ∧
    ∀ userId sessionId,
      opt_get (Config.configurable config) "userId" = JString userId →
      opt_get (Config.configurable config) "sessionId" = JString sessionId →
      userId ≠ "" → sessionId ≠ "" →
      getPromptFunction mode {| State.messages := history |} config =
        {| Message.role := "system";
           Message.content :=
             template +:+ LF +:+ LF +:+ session_info mode userId sessionId |}
        :: history.
Proof.
  intros Hm. destruct (systemMessage_of_mode mode Hm) as (template & Ht & Hs).
  exists template. split; [done |].
  unfold getPromptFunction, session_info. rewrite Hs. split; [done |].
  intros userId sessionId -> -> Hu Hse. by rewrite !js_or_nonempty.
Qed.

Lemma getPromptFunction_composes_witness :
  let config := with_configurable {[ "userId" := JString "u1"; "sessionId" := JString "s1" ]} in
  let history := [ {| Message.role := "user"; Message.content := "first" |};
                   {| Message.role := "assistant"; Message.content := "second" |} ] in
  ∃ template,
    systemMessages !! MODES.WIFE = Some template ∧
    getPromptFunction MODES.WIFE {| State.messages := history |} config =
      {| Message.role := "system";
         Message.content :=
           template +:+ LF +:+ LF +:+ session_info MODES.WIFE "u1" "s1" |}
      :: history.
Proof.
  intros config history.
  assert (Hm : MODES.WIFE ∈ MODES.values).
  { unfold MODES.values. rewrite !elem_of_cons. by right; left. }
  destruct (getPromptFunction_composes MODES.WIFE history config Hm)
    as (template & Ht & _ & Hids).
  exists template. split; [exact Ht |].
  apply Hids; [reflexivity | reflexivity | discriminate | discriminate].
Defined.

(** Counterexample to C7 as specified: for an empty userId the trailer
    names [default_user] in its place. *)
Lemma getPromptFunction_counterexample :
  let config := with_configurable {[ "userId" := JString ""; "sessionId" := JString "s1" ]} in
  ∃ template,
    systemMessages !! MODES.USER = Some template ∧
    getPromptFunction MODES.USER {| State.messages := [] |} config =
      [ {| Message.role := "system";
           Message.content :=
             template +:+ LF +:+ LF +:+ session_info MODES.USER "default_user" "s1" |} ] ∧
    session_info MODES.USER "default_user" "s1" ≠ session_info MODES.USER "" "s1".
Proof.
  eexists. split; [reflexivity |]. split; [reflexivity |]. vm_compute. discriminate.
Qed.

(** ** The entry point *)

Section Invoke.
Context {St : Type} `{BaseStore St}.

Lemma initialize_currentMode (proc : Process) (self self' : MarriageCounselorAgent St) :
  initialize proc self = inr self' → currentMode self' = currentMode self.
Proof.
  unfold initialize. destruct (initialized self); [by intros [= <-] |].
  destruct (negb _ && negb _); [done |].
  destruct (initChatModel _ _ _); [done |]. by intros [= <-].
Qed.

Lemma resolve_mode_unknown (self : MarriageCounselorAgent St) (input : Input.t)
    (m : string) :
  toUpperCase m ∉ MODES.keys →
  resolve_mode self (set_mode input (JString m)) = currentMode self.
Proof.
  intros Hm. unfold resolve_mode. simpl.
  case_decide; [done |].
  by rewrite (proj2 (MODES_lookup_None _) Hm).
Qed.

Lemma resolve_mode_absent (self : MarriageCounselorAgent St) (input : Input.t) :
  resolve_mode self (set_mode input JUndefined) = currentMode self.
Proof. reflexivity. Qed.

(** C3, as the code has it: a persona identifier that is not one of the
    three mode keys, in any letter case, is ignored: the turn is handled
    by the agent of the current mode, and the call behaves in every
    respect, store accesses included, as the call that names no persona. *)
Theorem invoke_unknown_persona (proc : Process) (self : MarriageCounselorAgent St)
    (input : Input.t) (config : Config.t) (m : string) :
  toUpperCase m ∉ MODES.keys →
  resolve_mode self (set_mode input (JString m)) = currentMode self ∧
  invoke proc self (set_mode input (JString m)) config =
    invoke proc self (set_mode input JUndefined) config.
Proof.
  intros Hm. split; [by apply resolve_mode_unknown |].
  unfold invoke. destruct (initialize proc self) as [e|self']; [done |].
  by rewrite resolve_mode_unknown, resolve_mode_absent.
Qed.
End Invoke.

Lemma invoke_unknown_persona_witness :
  let model := scripted [CallTool "get_both_stories" ∅; Answer "Here is my counsel."] in
  (toUpperCase "unknown" ∉ MODES.keys) ∧
  invoke (demo_process model) constructor (set_mode (say JNull "hi") (JString "unknown"))
         no_config =
    invoke (demo_process model) constructor (set_mode (say JNull "hi") JUndefined) no_config.
Proof.
  assert (Hm : toUpperCase "unknown" ∉ MODES.keys).
  { unfold MODES.keys. rewrite !not_elem_of_cons. repeat split; [discriminate ..|].
    apply not_elem_of_nil. }
  split; [exact Hm |].
  apply (invoke_unknown_persona _ constructor (say JNull "hi") no_config "unknown" Hm).
Defined.

(** Counterexample to C3 as specified: the call with persona [unknown]
    returns a response, and the agent that handles it, Solomon's, reads the
    store twice. *)
Lemma invoke_unknown_persona_counterexample :
  let model := scripted [CallTool "get_both_stories" ∅; Answer "Here is my counsel."] in
  let '(response, _, calls) :=
    invoke (demo_process model) constructor (say (JString "unknown") "hi") no_config in
  (∃ state, response = inr state) ∧
  calls = [ (MODES.SOLOMON,
             {| tc_name := "get_both_stories";
                tc_events := [ EvGet ["stories"] "default_user_user";
                               EvGet ["stories"] "default_user_wife" ] |}) ].
Proof. vm_compute. split; [by eexists | reflexivity]. Qed.

(** ** What a run can do to the store *)

Section Runs.
Context {St : Type} `{BaseStore St}.

Lemma saveUserStory_events (input : JsObj) (config : Config.t) (s : St) (ev : StoreEvent) :
  ev ∈ (saveUserStory input config s).2 →
  ∃ v, ev = EvPut ["stories"] (tool_userId config +:+ "_user") v.
Proof.
  destruct (Config.store config) as [h|] eqn:Hs.
  - rewrite (saveUserStory_run _ _ _ h Hs). cbv zeta.
    destruct (store_put _ _ _ s); cbn [snd]; rewrite list_elem_of_singleton;
      intros ->; by eexists.
  - rewrite (proj1 (tools_require_store _ _ _ Hs)). cbn [snd].
    by intros ?%elem_of_nil.
Qed.

Lemma saveWifeStory_events (input : JsObj) (config : Config.t) (s : St) (ev : StoreEvent) :
  ev ∈ (saveWifeStory input config s).2 →
  ∃ v, ev = EvPut ["stories"] (tool_userId config +:+ "_wife") v.
Proof.
  destruct (Config.store config) as [h|] eqn:Hs.
  - rewrite (saveWifeStory_run _ _ _ h Hs). cbv zeta.
    destruct (store_put _ _ _ s); cbn [snd]; rewrite list_elem_of_singleton;
      intros ->; by eexists.
  - rewrite (proj1 (proj2 (tools_require_store _ _ _ Hs))). cbn [snd].
    by intros ?%elem_of_nil.
Qed.

Lemma getBothStories_events (input : JsObj) (config : Config.t) (s : St) (ev : StoreEvent) :
  ev ∈ (getBothStories input config s).2 →
  ev = EvGet ["stories"] (tool_userId config +:+ "_user") ∨
  ev = EvGet ["stories"] (tool_userId config +:+ "_wife").
Proof.
  destruct (Config.store config) as [h|] eqn:Hs.
  - rewrite (getBothStories_run _ _ _ h Hs). cbn [snd].
    rewrite !elem_of_cons, elem_of_nil. tauto.
  - rewrite (proj2 (proj2 (tools_require_store _ _ _ Hs))). cbn [snd].
    by intros ?%elem_of_nil.
Qed.

Lemma find_tool_elem (ts : list (Tool St)) (nm : string) (t : Tool St) :
  find_tool ts nm = Some t → t ∈ ts.
Proof.
  unfold find_tool. intros Hf. apply find_some in Hf as [Hin _].
  by apply list_elem_of_In.
Qed.

(** The engine only ever runs tools of the agent's own tool set. *)
Lemma react_loop_calls (limit : nat) (ag : ReactAgent St) (config : Config.t)
    (msgs : list Message.t) (s : St) :
  Forall (call_of (tools ag) config) (react_loop limit ag config msgs s).2.
Proof.
  revert msgs s. induction limit as [|n IH]; intros msgs s; simpl; [constructor |].
  destruct (llm ag _) as [text|nm args]; [constructor |].
  destruct (find_tool (tools ag) nm) as [t|] eqn:Hf; [| constructor].
  apply find_tool_elem in Hf.
  destruct (parse (schema t) args) as [input|]; [| constructor].
  destruct (func t input config s) as [[[e|out] s'] evs] eqn:Hrun.
  - repeat constructor. exists t, input, s. by rewrite Hrun.
  - specialize (IH (msgs ++ [ai_message ""; tool_message out])%list s').
    destruct (react_loop n ag config _ s') as [[r s''] tr]. simpl in *.
    constructor; [| done]. exists t, input, s. by rewrite Hrun.
Qed.

Lemma agent_invoke_calls (limit : nat) (ag : ReactAgent St) (input : State.t)
    (config : Config.t) (w : World St) :
  Forall (call_of (tools ag) (engine_config ag config))
         (agent_invoke limit ag input config w).2.
Proof.
  unfold agent_invoke.
  destruct (opt_get _ "thread_id") as [| |thread]; try constructor.
  pose proof (react_loop_calls limit ag (engine_config ag config)
                (default [] (checkpoints w !! thread) ++ State.messages input)%list
                (facts w)) as Hc.
  unfold engine_config in *.
  by destruct (react_loop _ _ _ _ _) as [[[e|msgs] s'] tr].
Qed.

Lemma initialize_agents_ok (proc : Process) (self self' : MarriageCounselorAgent St) :
  agents_ok self → initialize proc self = inr self' → agents_ok self'.
Proof.
  unfold initialize. intros Hok.
  destruct (initialized self); [by intros [= <-] |].
  destruct (negb _ && negb _); [done |].
  destruct (initChatModel _ _ _) as [|model]; [done |]. intros [= <-].
  intros m ag. cbn [agents].
  rewrite !lookup_insert.
  repeat case_decide; subst;
    try (intros [= <-]; cbn [tools agent_store createReactAgent]; tauto).
  apply Hok.
Qed.

Lemma invoke_agents_ok (proc : Process) (self : MarriageCounselorAgent St)
    (input : Input.t) (config : Config.t) :
  agents_ok self → agents_ok (invoke proc self input config).1.2.
Proof.
  intros Hok. unfold invoke.
  destruct (initialize proc self) as [e|self'] eqn:Hi; [done |].
  apply (initialize_agents_ok _ _ _ Hok) in Hi.
  destruct (agents self' !! _) as [ag|]; [| done].
  by destruct (agent_invoke _ _ _ _ _) as [[r w] tr].
Qed.

Lemma setMode_agents_ok (self : MarriageCounselorAgent St) (mode : string) :
  agents_ok self → agents_ok (setMode self mode).2.
Proof.
  intros Hok. unfold setMode. destruct (MODES.table !! _); [| done].
  by case_decide.
Qed.

(** Every tool call of a turn was produced, under the merged
    configuration, by the tool set of the agent that handled the turn. *)
Lemma invoke_calls (proc : Process) (self : MarriageCounselorAgent St)
    (input : Input.t) (config : Config.t) (entry : string * ToolCallRecord) :
  agents_ok self →
  entry ∈ (invoke proc self input config).2 →
  ∃ self' ag,
    initialize proc self = inr self' ∧
    agents self' !! entry.1 = Some ag ∧
    call_of (tools ag) (engine_config ag (mergedConfig self' config)) entry.2.
Proof.
  intros Hok. unfold invoke.
  destruct (initialize proc self) as [e|self'] eqn:Hi; [by intros ?%elem_of_nil |].
  destruct (agents self' !! resolve_mode self' input) as [ag|] eqn:Hag;
    [| by intros ?%elem_of_nil].
  pose proof (agent_invoke_calls (recursionLimit proc) ag
                {| State.messages := input_messages input |} (mergedConfig self' config)
                {| checkpoints := checkpointer self'; facts := store self' |}) as Hc.
  destruct (agent_invoke _ _ _ _ _) as [[r w] tr]. cbn [snd] in *.
  rewrite list_elem_of_In, in_map_iff. intros (call & <- & Hin).
  exists self', ag. repeat split; [done |].
  by apply (proj1 (List.Forall_forall _ _) Hc).
Qed.
End Runs.

(** ** Who writes which key *)

Section Writers.
Context {St : Type} `{BaseStore St}.

(** The accesses of a call of a wired agent, by the mode of the agent. *)
Lemma call_of_wired (self : MarriageCounselorAgent St) (m : string) (ag : ReactAgent St)
    (config : Config.t) (call : ToolCallRecord) (ev : StoreEvent) :
  agents_ok self → agents self !! m = Some ag →
  call_of (tools ag) config call → ev ∈ tc_events call →
  (m = MODES.USER ∧ tc_name call = "save_user_story" ∧
     ∃ v, ev = EvPut ["stories"] (tool_userId config +:+ "_user") v) ∨
  (m = MODES.WIFE ∧ tc_name call = "save_wife_story" ∧
     ∃ v, ev = EvPut ["stories"] (tool_userId config +:+ "_wife") v) ∨
  (m = MODES.SOLOMON ∧ tc_name call = "get_both_stories" ∧
     (ev = EvGet ["stories"] (tool_userId config +:+ "_user") ∨
      ev = EvGet ["stories"] (tool_userId config +:+ "_wife"))).
Proof.
  intros Hok Hag (t & input & s & Ht & Hname & Hev) Hin.
  rewrite Hev in Hin. rewrite Hname.
  destruct (Hok m ag Hag) as [_ [[-> Hts]|[[-> Hts]|[-> Hts]]]];
    rewrite Hts in Ht; apply list_elem_of_singleton in Ht; subst t;
    cbn [func name] in *.
  - left. repeat split. by apply saveUserStory_events in Hin.
  - right; left. repeat split. by apply saveWifeStory_events in Hin.
  - right; right. repeat split. by apply getBothStories_events in Hin.
Qed.

Lemma invoke_writer_ok (proc : Process) (self : MarriageCounselorAgent St)
    (input : Input.t) (config : Config.t) :
  agents_ok self → Forall (writer_ok St) (invoke proc self input config).2.
Proof.
  intros Hok. apply Forall_forall. intros entry Hin.
  destruct (invoke_calls proc self input config entry Hok Hin)
    as (self' & ag & Hi & Hag & Hcall).
  apply (initialize_agents_ok _ _ _ Hok) in Hi.
  intros ns key v Hev.
  destruct (call_of_wired self' _ ag _ _ _ Hi Hag Hcall Hev)
    as [(Hm & Hn & v' & [= -> -> ->])|[(Hm & Hn & v' & [= -> -> ->])|(_ & _ & [?|?])]];
    try done.
  - split; intros u Hu.
    + split; [done |]. rewrite Hn. by apply list_elem_of_singleton.
    + by apply user_key_not_wife_key in Hu.
  - split; intros u Hu.
    + symmetry in Hu. by apply user_key_not_wife_key in Hu.
    + split; [done |]. rewrite Hn. by apply list_elem_of_singleton.
Qed.

Lemma run_writer_ok (proc : Process) (cmds : list Command)
    (self : MarriageCounselorAgent St) :
  agents_ok self → Forall (writer_ok St) (run proc self cmds).2.
Proof.
  revert self. induction cmds as [|[input config|mode] rest IH]; intros self Hok.
  - constructor.
  - simpl. pose proof (invoke_writer_ok proc self input config Hok) as Hw.
    pose proof (invoke_agents_ok proc self input config Hok) as Hok'.
    destruct (invoke proc self input config) as [[r self'] tr].
    specialize (IH self' Hok').
    destruct (run proc self' rest) as [self'' tr'].
    by apply Forall_app.
  - simpl. apply IH. by apply setMode_agents_ok.
Qed.

Lemma tool_userId_merged (self : MarriageCounselorAgent St) (config : Config.t) :
  tool_userId (mergedConfig self config) = tool_userId config.
Proof.
  unfold tool_userId. rewrite mergedConfig_lookup, defaultConfigurable_userId.
  unfold opt_get. destruct (Config.configurable config) as [c|]; simpl; [| done].
  by destruct (c !! "userId") as [[| |u]|].
Qed.

Lemma sessionId_merged (self : MarriageCounselorAgent St) (config : Config.t) :
  js_or (opt_get (Config.configurable (mergedConfig self config)) "sessionId")
        "default_session" =
  js_or (opt_get (Config.configurable config) "sessionId") "default_session".
Proof.
  rewrite mergedConfig_lookup, defaultConfigurable_sessionId.
  unfold opt_get. destruct (Config.configurable config) as [c|]; simpl; [| done].
  by destruct (c !! "sessionId") as [[| |u]|].
Qed.
End Writers.

Lemma constructor_agents_ok : agents_ok constructor.
Proof. intros m ag. unfold constructor. cbn [agents]. by rewrite lookup_empty. Qed.

(** C1: in every run of the system, that is whatever the chat model
    decides along any sequence of [invoke] and [setMode] calls on a new
    agent, every store write to a key ["{userId}_user"] is made by a tool
    of the Advocate's tool set running in the Advocate's agent, and every
    write to a key ["{userId}_wife"] by a tool of the OpposingRolePlay tool
    set running in that persona's agent; no other persona causes either
    write. *)
Theorem writes_match_persona (proc : Process) (cmds : list Command) :
  Forall (writer_ok InMemoryStore) (run proc constructor cmds).2.
Proof. apply run_writer_ok, constructor_agents_ok. Qed.

(** The three personas at work for user [u1], each in its own thread. *)
Example run_three_personas :
  let model := persona_model "She overspent on furniture"
                             "I bought only what the house needed" in
  let config := with_configurable {[ "userId" := JString "u1"; "sessionId" := JString "s1" ]} in
  let '(self, calls) :=
    run (demo_process model) constructor
        [ DoSetMode "user"; DoInvoke (say JUndefined "She spends too much") config;
          DoSetMode "wife"; DoInvoke (say JUndefined "I only buy what we need") config;
          DoSetMode "solomon"; DoInvoke (say JUndefined "Judge us") config ] in
  calls =
    [ (MODES.USER,
       {| tc_name := "save_user_story";
          tc_events := [ EvPut ["stories"] "u1_user"
                               {| content := JString "She overspent on furniture" |} ] |});
      (MODES.WIFE,
       {| tc_name := "save_wife_story";
          tc_events := [ EvPut ["stories"] "u1_wife"
                               {| content := JString "I bought only what the house needed" |} ] |});
      (MODES.SOLOMON,
       {| tc_name := "get_both_stories";
          tc_events := [ EvGet ["stories"] "u1_user"; EvGet ["stories"] "u1_wife" ] |}) ] ∧
  last <$> checkpointer self !! "king_solomon_wise_s1" =
    Some (Some (ai_message "I see.")).
Proof. vm_compute. split; reflexivity. Qed.

(** ** The errors of the entry point *)

(** On a store that never throws, a tool of a wired agent returns. *)
Lemma wired_tool_returns (ts : list (Tool InMemoryStore)) (t : Tool InMemoryStore)
    (input : JsObj) (config : Config.t) (s : InMemoryStore) (h : StoreHandle) :
  ts = createUserModeTools ∨ ts = createWifeModeTools ∨ ts = createSolomonModeTools →
  t ∈ ts → Config.store config = Some h →
  ∃ out, (func t input config s).1.1 = inr out.
Proof.
  intros [->|[->| ->]] Ht%list_elem_of_singleton Hs; subst t; cbn [func].
  - rewrite (saveUserStory_run _ _ _ h Hs). by eexists.
  - rewrite (saveWifeStory_run _ _ _ h Hs). by eexists.
  - rewrite (getBothStories_run _ _ _ h Hs). by eexists.
Qed.

Lemma react_loop_errors (limit : nat) (ag : ReactAgent InMemoryStore) (config : Config.t)
    (msgs : list Message.t) (s : InMemoryStore) (h : StoreHandle) (e : Exn) :
  tools ag = createUserModeTools ∨ tools ag = createWifeModeTools ∨
    tools ag = createSolomonModeTools →
  Config.store config = Some h →
  (react_loop limit ag config msgs s).1.1 = inl e → setup_or_engine_error e.
Proof.
  intros Hts Hs. unfold setup_or_engine_error.
  revert msgs s. induction limit as [|n IH]; intros msgs s; simpl.
  { intros [= <-]. do 4 right. by eexists. }
  destruct (llm ag _) as [text|nm args]; [done |].
  destruct (find_tool (tools ag) nm) as [t|] eqn:Hf; simpl;
    [| intros [= <-]; do 4 right; by eexists].
  apply find_tool_elem in Hf.
  destruct (parse (schema t) args) as [input|]; simpl; [| intros [= <-]; tauto].
  destruct (wired_tool_returns _ t input config s h Hts Hf Hs) as [out Hout].
  destruct (func t input config s) as [[[e'|out'] s'] evs]; [done |].
  specialize (IH (msgs ++ [ai_message ""; tool_message out'])%list s').
  by destruct (react_loop n ag config _ s') as [[r s''] tr].
Qed.

(** Whatever persona the input names and whatever ids the configuration
    gives or omits, a failing call of [invoke] fails in [initialize], on
    the agent table or in the engine. *)
Lemma invoke_errors (proc : Process) (self : MarriageCounselorAgent InMemoryStore)
    (input : Input.t) (config : Config.t) (e : Exn) :
  agents_ok self →
  (invoke proc self input config).1.1 = inl e → setup_or_engine_error e.
Proof.
  intros Hok. unfold invoke.
  destruct (initialize proc self) as [e'|self'] eqn:Hi; simpl.
  { intros [= <-]. revert Hi. unfold initialize, setup_or_engine_error.
    destruct (initialized self); [done |].
    destruct (negb _ && negb _); [intros [= <-]; tauto |].
    destruct (initChatModel _ _ _) as [err|]; [| done].
    intros [= <-]. right; left. by eexists. }
  apply (initialize_agents_ok _ _ _ Hok) in Hi.
  destruct (agents self' !! resolve_mode self' input) as [ag|] eqn:Hag; simpl.
  2: { intros [= <-]. do 2 right; left. by eexists. }
  destruct (Hi _ _ Hag) as [Hst Hts].
  assert (Hts' : tools ag = createUserModeTools ∨ tools ag = createWifeModeTools ∨
                 tools ag = createSolomonModeTools) by tauto.
  unfold agent_invoke.
  destruct (opt_get _ "thread_id") as [| |thread]; simpl;
    try (intros [= <-]; do 4 right; by eexists).
  pose proof (react_loop_errors (recursionLimit proc) ag
                (engine_config ag (mergedConfig self' config))
                (default [] (checkpointer self' !! thread) ++ input_messages input)%list
                (store self') SharedStore e Hts' Hst) as Hr.
  destruct (react_loop _ _ _ _ _) as [[[e'|msgs] s'] tr]; simpl in *; [| done].
  intros [= <-]. by apply Hr.
Qed.

(** * Further properties of the deployment class *)

(** ** Initialization *)

Section Initialize.
Context {St : Type} `{BaseStore St}.

(** X1: once [initialize] has succeeded, the object is marked initialized
    and every later call returns it as it is, whatever has become of the
    environment. *)
Theorem initialize_idempotent (proc proc' : Process)
    (self self' : MarriageCounselorAgent St) :
  initialize proc self = inr self' →
  initialized self' = true ∧ initialize proc' self' = inr self'.
Proof.
  unfold initialize at 1. destruct (initialized self) eqn:Hi.
  - intros [= <-]. split; [done |]. unfold initialize. by rewrite Hi.
  - destruct (negb _ && negb _); [done |].
    destruct (initChatModel _ _ _); [done |]. intros [= <-].
    split; reflexivity.
Qed.

Lemma initialize_failure (proc : Process) (self : MarriageCounselorAgent St) (e : Exn) :
  initialize proc self = inl e →
  initialized self = false ∧
  (e = Error "Please set OPENAI_API_KEY or ANTHROPIC_API_KEY in your environment" ∨
   ∃ m, e = Error ("Failed to initialize agent: " +:+ m)).
Proof.
  unfold initialize. destruct (initialized self); [done |].
  destruct (negb _ && negb _); [intros [= <-]; auto |].
  destruct (initChatModel _ _ _) as [err|]; [| done].
  intros [= <-]. split; [done |]. right. by eexists.
Qed.

(** X2: when the initialization fails, [invoke] fails with the same error,
    which is one of the two errors of [initialize]; no agent runs, nothing
    is accessed, and the object is returned unchanged and uninitialized,
    so that the next call tries the initialization again. *)
Theorem invoke_initialize_failure (proc : Process) (self : MarriageCounselorAgent St)
    (input : Input.t) (config : Config.t) (e : Exn) :
  initialize proc self = inl e →
  invoke proc self input config = (inl e, self, []) ∧
  initialized self = false ∧
  (e = Error "Please set OPENAI_API_KEY or ANTHROPIC_API_KEY in your environment" ∨
   ∃ m, e = Error ("Failed to initialize agent: " +:+ m)).
Proof.
  intros Hi. split; [| by apply (initialize_failure proc)].
  unfold invoke. by rewrite Hi.
Qed.

Lemma initialize_ready (proc : Process) (self self' : MarriageCounselorAgent St) :
  ready self → initialize proc self = inr self' →
  ready self' ∧ ∀ m, m ∈ MODES.values → is_Some (agents self' !! m).
Proof.
  intros [Hm Hag]. unfold initialize. destruct (initialized self) eqn:Hi.
  - intros [= <-]. split; [split; [done |]; by rewrite Hi |]. by apply Hag.
  - destruct (negb _ && negb _); [done |].
    destruct (initChatModel _ _ _) as [|model]; [done |]. intros [= <-].
    assert (Hall : ∀ m, m ∈ MODES.values →
              is_Some ((<[MODES.SOLOMON := createReactAgent model createSolomonModeTools MODES.SOLOMON]>
                       (<[MODES.WIFE := createReactAgent model createWifeModeTools MODES.WIFE]>
                       (<[MODES.USER := createReactAgent model createUserModeTools MODES.USER]>
                          (agents self)))) !! m)).
    { intros m. unfold MODES.values. rewrite !elem_of_cons, elem_of_nil.
      intros [->|[->|[->|[]]]].
      - rewrite !lookup_insert_ne, lookup_insert_eq by discriminate. by eexists.
      - rewrite lookup_insert_ne, lookup_insert_eq by discriminate. by eexists.
      - rewrite lookup_insert_eq. by eexists. }
    split; [split; [done |] |]; cbn [agents]; auto.
Qed.

Lemma resolve_mode_values (self : MarriageCounselorAgent St) (input : Input.t) :
  currentMode self ∈ MODES.values → resolve_mode self input ∈ MODES.values.
Proof.
  intros Hm. unfold resolve_mode. destruct (truthy _); [| done].
  rewrite MODES_lookup. unfold MODES.values.
  repeat case_decide; try done; rewrite !elem_of_cons; auto.
Qed.

Lemma invoke_currentMode (proc : Process) (self : MarriageCounselorAgent St)
    (input : Input.t) (config : Config.t) :
  currentMode (invoke proc self input config).1.2 = currentMode self.
Proof.
  unfold invoke. destruct (initialize proc self) as [e|self'] eqn:Hi; [done |].
  apply initialize_currentMode in Hi.
  destruct (agents self' !! _) as [ag|]; [| done].
  by destruct (agent_invoke _ _ _ _ _) as [[r w] tr].
Qed.

Lemma invoke_ready (proc : Process) (self : MarriageCounselorAgent St)
    (input : Input.t) (config : Config.t) :
  ready self → ready (invoke proc self input config).1.2.
Proof.
  intros Hr. unfold invoke.
  destruct (initialize proc self) as [e|self'] eqn:Hi; [done |].
  destruct (initialize_ready _ _ _ Hr Hi) as [[Hm Hag] _].
  destruct (agents self' !! _) as [ag|]; [| done].
  by destruct (agent_invoke _ _ _ _ _) as [[r w] tr].
Qed.

Lemma setMode_ready (self : MarriageCounselorAgent St) (mode : string) :
  ready self → ready (setMode self mode).2.
Proof.
  intros [Hm Hag]. unfold setMode. rewrite MODES_lookup.
  repeat case_decide; try done; (split; [| done]); cbn [snd currentMode];
    unfold MODES.values; rewrite !elem_of_cons; auto.
Qed.

Lemma run_invariant (P : MarriageCounselorAgent St → Prop) (proc : Process)
    (cmds : list Command) (self : MarriageCounselorAgent St) :
  (∀ self input config, P self → P (invoke proc self input config).1.2) →
  (∀ self mode, P self → P (setMode self mode).2) →
  P self → P (run proc self cmds).1.
Proof.
  intros Hinv Hset. revert self.
  induction cmds as [|[input config|mode] rest IH]; intros self HP; [done | |].
  - simpl. specialize (Hinv self input config HP).
    destruct (invoke proc self input config) as [[r self'] tr].
    specialize (IH self' Hinv). by destruct (run proc self' rest).
  - simpl. by apply IH, Hset.
Qed.

Lemma run_Forall (P : string * ToolCallRecord → Prop) (proc : Process)
    (cmds : list Command) (self : MarriageCounselorAgent St) :
  (∀ self input config, agents_ok self → Forall P (invoke proc self input config).2) →
  agents_ok self → Forall P (run proc self cmds).2.
Proof.
  intros HP. revert self.
  induction cmds as [|[input config|mode] rest IH]; intros self Hok.
  - constructor.
  - simpl. pose proof (HP self input config Hok) as Hw.
    pose proof (invoke_agents_ok proc self input config Hok) as Hok'.
    destruct (invoke proc self input config) as [[r self'] tr].
    specialize (IH self' Hok'). destruct (run proc self' rest) as [self'' tr'].
    by apply Forall_app.
  - simpl. by apply IH, setMode_agents_ok.
Qed.

(** X3: [invoke] never changes the current mode: a mode named by the
    input holds for that call only. *)
Theorem invoke_keeps_currentMode (proc : Process) (self : MarriageCounselorAgent St)
    (first next : Input.t) (config config' : Config.t) :
  let self' := (invoke proc self first config).1.2 in
  currentMode self' = currentMode self ∧
  (truthy (Input.mode next) = false →
   ∀ entry, entry ∈ (invoke proc self' next config').2 → entry.1 = currentMode self).
Proof.
  intros self'. pose proof (invoke_currentMode proc self first config) as Hm.
  split; [done |]. intros Hnext entry. fold self' in Hm. revert Hm.
  generalize self'. clear self'. intros self' Hm. unfold invoke.
  destruct (initialize proc self') as [e|self''] eqn:Hi; [by intros ?%elem_of_nil |].
  apply initialize_currentMode in Hi.
  assert (Hr : resolve_mode self'' next = currentMode self).
  { unfold resolve_mode. rewrite Hnext. congruence. }
  rewrite Hr. destruct (agents self'' !! _) as [ag|]; [| by intros ?%elem_of_nil].
  destruct (agent_invoke _ _ _ _ _) as [[r w] tr]. cbn [snd].
  rewrite list_elem_of_In, in_map_iff. by intros (call & <- & _).
Qed.

(** X4: the agent that handles a turn. When the mode named by the input
    upper-cases to a key of [MODES], every tool call of the turn is made by
    the agent of that key, whatever the current mode, and it is a call of
    that persona's own tool. *)
Theorem invoke_routes_by_mode (proc : Process) (self : MarriageCounselorAgent St)
    (input : Input.t) (config : Config.t) (m k v : string)
    (entry : string * ToolCallRecord) :
  agents_ok self → (k, v) ∈ MODES_entries → toUpperCase m = k →
  entry ∈ (invoke proc self (set_mode input (JString m)) config).2 →
  entry.1 = v ∧
  ((v = MODES.USER ∧ tc_name entry.2 = "save_user_story") ∨
   (v = MODES.WIFE ∧ tc_name entry.2 = "save_wife_story") ∨
   (v = MODES.SOLOMON ∧ tc_name entry.2 = "get_both_stories")).
Proof.
  intros Hok Hkv Hup Hin.
  destruct (invoke_calls proc self _ config entry Hok Hin)
    as (self' & ag & Hi & Hag & (t & inp & s & Ht & Hname & _)).
  assert (Hv : entry.1 = v).
  { revert Hin. unfold invoke. rewrite Hi.
    assert (Hr : resolve_mode self' (set_mode input (JString m)) = v).
    { unfold resolve_mode. cbn [Input.mode set_mode truthy js_to_string].
      assert (m ≠ "") as Hne.
      { intros ->. revert Hkv. simpl in Hup. subst k. unfold MODES_entries.
        rewrite !elem_of_cons, elem_of_nil. intros [?|[?|[?|[]]]]; discriminate. }
      case_decide; [done |]. rewrite Hup, MODES_lookup. revert Hkv.
      unfold MODES_entries. rewrite !elem_of_cons, elem_of_nil.
      intros [[= -> ->]|[[= -> ->]|[[= -> ->]|[]]]]; reflexivity. }
    rewrite Hr. destruct (agents self' !! v) as [ag'|]; [| by intros ?%elem_of_nil].
    destruct (agent_invoke _ _ _ _ _) as [[r w] tr]. cbn [snd].
    rewrite list_elem_of_In, in_map_iff. by intros (call & <- & _). }
  split; [done |].
  apply (initialize_agents_ok _ _ _ Hok) in Hi.
  rewrite Hv in Hag. rewrite Hname.
  destruct (Hi v ag Hag) as [_ [[-> Hts]|[[-> Hts]|[-> Hts]]]];
    rewrite Hts in Ht; apply list_elem_of_singleton in Ht; subst t; auto.
Qed.
End Initialize.

Lemma initialize_idempotent_witness :
  let proc := demo_process (scripted []) in
  let proc' := {| OPENAI_API_KEY := JUndefined; ANTHROPIC_API_KEY := JUndefined;
                  initChatModel := fun _ _ => inl (Error "no model");
                  recursionLimit := 0 |} in
  ∃ self', initialize proc constructor = inr self' ∧
           initialized self' = true ∧ initialize proc' self' = inr self'.
Proof.
  intros proc proc'. eexists. split; [reflexivity |].
  apply (initialize_idempotent proc proc' constructor). reflexivity.
Defined.

Lemma invoke_initialize_failure_witness :
  let proc := {| OPENAI_API_KEY := JString ""; ANTHROPIC_API_KEY := JUndefined;
                 initChatModel := fun _ _ => inr (scripted []);
                 recursionLimit := 25 |} in
  invoke proc constructor (say JUndefined "hi") no_config =
    (inl (Error "Please set OPENAI_API_KEY or ANTHROPIC_API_KEY in your environment"),
     constructor, []).
Proof.
  intros proc.
  apply (invoke_initialize_failure proc constructor (say JUndefined "hi") no_config).
  reflexivity.
Defined.

Lemma invoke_keeps_currentMode_witness :
  let proc := demo_process (persona_model "a" "b") in
  let self' := (invoke proc constructor (say (JString "user") "hi") no_config).1.2 in
  currentMode self' = MODES.SOLOMON ∧
  ∀ entry, entry ∈ (invoke proc self' (say JNull "again") no_config).2 →
           entry.1 = MODES.SOLOMON.
Proof.
  intros proc self'.
  destruct (invoke_keeps_currentMode proc constructor (say (JString "user") "hi")
              (say JNull "again") no_config no_config) as [Hm Hnext].
  split; [exact Hm |]. exact (Hnext eq_refl).
Defined.

Lemma invoke_routes_by_mode_witness :
  let entry := (MODES.WIFE,
                {| tc_name := "save_wife_story";
                   tc_events := [ EvPut ["stories"] "default_user_wife"
                                        {| content := JString "b" |} ] |}) in
  entry.1 = MODES.WIFE ∧
  ((MODES.WIFE = MODES.USER ∧ tc_name entry.2 = "save_user_story") ∨
   (MODES.WIFE = MODES.WIFE ∧ tc_name entry.2 = "save_wife_story") ∨
   (MODES.WIFE = MODES.SOLOMON ∧ tc_name entry.2 = "get_both_stories")).
Proof.
  intros entry.
  apply (invoke_routes_by_mode (demo_process (persona_model "a" "b")) constructor
           (say JNull "hi") no_config "Wife" "WIFE" MODES.WIFE entry
           constructor_agents_ok).
  - unfold MODES_entries. rewrite !elem_of_cons. by right; left.
  - reflexivity.
  - vm_compute. apply list_elem_of_here.
Defined.

Example invoke_routes_by_mode_run :
  (invoke (demo_process (persona_model "a" "b")) constructor
          (set_mode (say JNull "hi") (JString "Wife")) no_config).2 =
    [ (MODES.WIFE,
       {| tc_name := "save_wife_story";
          tc_events := [ EvPut ["stories"] "default_user_wife" {| content := JString "b" |} ] |}) ].
Proof. vm_compute. reflexivity. Qed.

(** ** The errors and the store accesses of a run *)

Lemma constructor_ready : ready constructor.
Proof.
  split; [| done]. unfold constructor, MODES.values. cbn [currentMode].
  rewrite !elem_of_cons. auto.
Qed.

Lemma run_agents_ok {St} `{BaseStore St} (proc : Process) (cmds : list Command)
    (self : MarriageCounselorAgent St) :
  agents_ok self → agents_ok (run proc self cmds).1.
Proof.
  apply run_invariant.
  - intros. by apply invoke_agents_ok.
  - intros. by apply setMode_agents_ok.
Qed.

Lemma run_ready {St} `{BaseStore St} (proc : Process) (cmds : list Command)
    (self : MarriageCounselorAgent St) :
  ready self → ready (run proc self cmds).1.
Proof.
  apply run_invariant.
  - intros. by apply invoke_ready.
  - intros. by apply setMode_ready.
Qed.

Lemma react_loop_engine_errors (limit : nat) (ag : ReactAgent InMemoryStore)
    (config : Config.t) (msgs : list Message.t) (s : InMemoryStore) (h : StoreHandle)
    (e : Exn) :
  tools ag = createUserModeTools ∨ tools ag = createWifeModeTools ∨
    tools ag = createSolomonModeTools →
  Config.store config = Some h →
  (react_loop limit ag config msgs s).1.1 = inl e →
  e = Error "Received tool input did not match expected schema" ∨ ∃ m, e = EngineFault m.
Proof.
  intros Hts Hs. revert msgs s. induction limit as [|n IH]; intros msgs s; simpl.
  { intros [= <-]. right. by eexists. }
  destruct (llm ag _) as [text|nm args]; [done |].
  destruct (find_tool (tools ag) nm) as [t|] eqn:Hf; simpl;
    [| intros [= <-]; right; by eexists].
  apply find_tool_elem in Hf.
  destruct (parse (schema t) args) as [input|]; simpl; [| intros [= <-]; by left].
  destruct (wired_tool_returns _ t input config s h Hts Hf Hs) as [out Hout].
  destruct (func t input config s) as [[[e'|out'] s'] evs]; [done |].
  specialize (IH (msgs ++ [ai_message ""; tool_message out'])%list s').
  by destruct (react_loop n ag config _ s') as [[r s''] tr].
Qed.

(** X5: on an agent object as a run leaves it, whatever the input and the
    configuration, the guard on the agent table never fires: a call of
    [invoke] that fails fails in [initialize] or in the engine, never for
    want of an agent for the mode. *)
Theorem invoke_agent_always_present (proc0 proc : Process) (cmds : list Command)
    (input : Input.t) (config : Config.t) (e : Exn) :
  (invoke proc (run proc0 constructor cmds).1 input config).1.1 = inl e →
  init_or_engine_error e ∧
  ∃ self', initialize proc (run proc0 constructor cmds).1 = inl e ∨
           (initialize proc (run proc0 constructor cmds).1 = inr self' ∧
            is_Some (agents self' !! resolve_mode self' input)).
Proof.
  pose proof (run_agents_ok proc0 cmds constructor constructor_agents_ok) as Hok.
  pose proof (run_ready proc0 cmds constructor constructor_ready) as Hr.
  revert Hok Hr. generalize (run proc0 constructor cmds).1. intros self Hok Hr.
  unfold invoke, init_or_engine_error.
  destruct (initialize proc self) as [e'|self'] eqn:Hi; simpl.
  { intros [= <-]. split; [| exists self; by left].
    destruct (initialize_failure _ _ _ Hi) as [_ [->|[m ->]]]; eauto. }
  destruct (initialize_ready _ _ _ Hr Hi) as [[Hm _] Hall].
  destruct (Hall (resolve_mode self' input) (resolve_mode_values _ _ Hm)) as [ag Hag].
  rewrite Hag. intros He. split; [| exists self'; right; split; [done | by eexists]].
  revert He.
  apply (initialize_agents_ok _ _ _ Hok) in Hi.
  destruct (Hi _ _ Hag) as [Hst Hts].
  assert (Hts' : tools ag = createUserModeTools ∨ tools ag = createWifeModeTools ∨
                 tools ag = createSolomonModeTools) by tauto.
  unfold agent_invoke.
  destruct (opt_get _ "thread_id") as [| |thread]; simpl;
    try (intros [= <-]; do 3 right; by eexists).
  pose proof (react_loop_engine_errors (recursionLimit proc) ag
                (engine_config ag (mergedConfig self' config))
                (default [] (checkpointer self' !! thread) ++ input_messages input)%list
                (store self') SharedStore e Hts' Hst) as Hre.
  destruct (react_loop _ _ _ _ _) as [[[e'|msgs] s'] tr]; simpl in *; [| done].
  intros [= <-]. destruct (Hre eq_refl) as [->|[m ->]]; eauto.
Qed.

Lemma invoke_agent_always_present_witness :
  let proc := {| OPENAI_API_KEY := JString "sk-test"; ANTHROPIC_API_KEY := JUndefined;
                 initChatModel := fun _ _ => inr (scripted []);
                 recursionLimit := 0 |} in
  init_or_engine_error (EngineFault "Recursion limit reached").
Proof.
  intros proc.
  apply (invoke_agent_always_present proc proc [DoSetMode "wife"]
           (say (JString "nobody") "hi") no_config).
  reflexivity.
Defined.

Lemma invoke_reader_ok {St} `{BaseStore St} (proc : Process)
    (self : MarriageCounselorAgent St) (input : Input.t) (config : Config.t) :
  agents_ok self → Forall reader_ok (invoke proc self input config).2.
Proof.
  intros Hok. apply Forall_forall. intros entry Hin.
  destruct (invoke_calls proc self input config entry Hok Hin)
    as (self' & ag & Hi & Hag & Hcall).
  apply (initialize_agents_ok _ _ _ Hok) in Hi.
  intros ns key Hev.
  by destruct (call_of_wired self' _ ag _ _ _ Hi Hag Hcall Hev)
    as [(_ & _ & v & ?)|[(_ & _ & v & ?)|(-> & -> & _)]].
Qed.

(** X6: in every run of the system, whatever the chat model decides, the
    store is only ever read by [get_both_stories] running in Solomon's
    agent: a turn of the other two personas never reads a record. *)
Theorem reads_only_by_arbiter (proc : Process) (cmds : list Command) :
  Forall reader_ok (run proc constructor cmds).2.
Proof.
  apply run_Forall; [| apply constructor_agents_ok].
  intros self input config. apply invoke_reader_ok.
Qed.

(** ** The keys of the tools *)

Section ToolKeys.
Context {St : Type} `{BaseStore St}.

(** The keys a tool of the three tool sets touches. *)
Lemma tool_event_keys (ts : list (Tool St)) (config : Config.t) (call : ToolCallRecord)
    (ev : StoreEvent) :
  ts = createUserModeTools ∨ ts = createWifeModeTools ∨ ts = createSolomonModeTools →
  call_of ts config call → ev ∈ tc_events call →
  event_key ev = tool_userId config +:+ "_user" ∨
  event_key ev = tool_userId config +:+ "_wife".
Proof.
  intros Hts (t & input & s & Ht & _ & Hev) Hin. rewrite Hev in Hin.
  destruct Hts as [->|[->| ->]]; apply list_elem_of_singleton in Ht; subst t;
    cbn [func] in Hin.
  - apply saveUserStory_events in Hin as [v ->]. by left.
  - apply saveWifeStory_events in Hin as [v ->]. by right.
  - apply getBothStories_events in Hin as [->| ->]; [by left | by right].
Qed.

(** X7: the records of two users are apart. Whatever tools run for two
    configurations whose user ids differ (after the default is applied),
    no key touched for the one is touched for the other. *)
Theorem tools_keys_apart (ts1 ts2 : list (Tool St)) (c1 c2 : Config.t)
    (call1 call2 : ToolCallRecord) (ev1 ev2 : StoreEvent) :
  ts1 = createUserModeTools ∨ ts1 = createWifeModeTools ∨ ts1 = createSolomonModeTools →
  ts2 = createUserModeTools ∨ ts2 = createWifeModeTools ∨ ts2 = createSolomonModeTools →
  tool_userId c1 ≠ tool_userId c2 →
  call_of ts1 c1 call1 → call_of ts2 c2 call2 →
  ev1 ∈ tc_events call1 → ev2 ∈ tc_events call2 →
  event_key ev1 ≠ event_key ev2.
Proof.
  intros H1 H2 Hne Hc1 Hc2 Hin1 Hin2 E.
  destruct (tool_event_keys _ _ _ _ H1 Hc1 Hin1) as [K1|K1],
           (tool_event_keys _ _ _ _ H2 Hc2 Hin2) as [K2|K2];
    rewrite K1, K2 in E;
    (apply append_inj_same_length in E; [by destruct E | reflexivity]).
Qed.

(** X8: a tool sees of its configuration only whether a store is there and
    the user id after the default is applied. In particular a caller that
    gives no userId and a caller that gives [default_user] work on the same
    records. *)
Theorem tools_same_effective_user (input : JsObj) (c1 c2 : Config.t) (s : St) :
  Config.store c1 = Config.store c2 → tool_userId c1 = tool_userId c2 →
  saveUserStory input c1 s = saveUserStory input c2 s ∧
  saveWifeStory input c1 s = saveWifeStory input c2 s ∧
  getBothStories input c1 s = getBothStories input c2 s.
Proof.
  unfold tool_userId, saveUserStory, saveWifeStory, getBothStories.
  intros -> ->. done.
Qed.
End ToolKeys.

Lemma tools_keys_apart_witness :
  event_key (EvPut ["stories"] "u1_user" {| content := JString "a" |}) ≠
  event_key (EvGet ["stories"] "u2_user").
Proof.
  apply (tools_keys_apart (St := InMemoryStore)
           createUserModeTools createSolomonModeTools (tool_config "u1") (tool_config "u2")
           {| tc_name := "save_user_story";
              tc_events := [EvPut ["stories"] "u1_user" {| content := JString "a" |}] |}
           {| tc_name := "get_both_stories";
              tc_events := [EvGet ["stories"] "u2_user"; EvGet ["stories"] "u2_wife"] |}).
  - by left.
  - by right; right.
  - discriminate.
  - eexists _, (story_input "a"), empty_store. split; [by apply list_elem_of_singleton |].
    split; reflexivity.
  - eexists _, ∅, empty_store. split; [by apply list_elem_of_singleton |].
    split; reflexivity.
  - by apply list_elem_of_singleton.
  - cbn [tc_events]. rewrite elem_of_cons. by left.
Defined.

Lemma tools_same_effective_user_witness :
  let anonymous := {| Config.store := Some SharedStore; Config.configurable := None |} in
  saveUserStory (story_input "a") anonymous empty_store =
    saveUserStory (story_input "a") (tool_config "default_user") empty_store.
Proof.
  intros anonymous.
  apply (tools_same_effective_user (story_input "a") anonymous
           (tool_config "default_user") empty_store); reflexivity.
Defined.

(** ** Discovery *)

(** X9: [getModes] lists the three modes in the order USER, WIFE,
    SOLOMON, each with a description of its own; [setMode] accepts the
    key of every entry and makes its value the current mode. A mode that
    is not one of the three values is described as unknown. *)
Theorem getModes_setMode :
  map ModeInfo.key getModes = MODES.keys ∧
  map ModeInfo.value getModes = MODES.values ∧
  (∀ info, info ∈ getModes →
     ModeInfo.description info ≠ "Unknown Mode" ∧
     ∀ St (self : MarriageCounselorAgent St),
       setMode self (ModeInfo.key info) =
         (true, set_currentMode self (ModeInfo.value info))) ∧
  (∀ mode, mode ∉ MODES.values → getModeDescription mode = "Unknown Mode").
Proof.
  split; [reflexivity |]. split; [reflexivity |]. split.
  - intros info. unfold getModes, MODES_entries. cbn [map fst snd].
    rewrite !elem_of_cons, elem_of_nil.
    intros [->|[->|[->|[]]]]; (split; [by vm_compute | reflexivity]).
  - intros mode. unfold MODES.values, getModeDescription.
    rewrite !not_elem_of_cons. intros (? & ? & ? & _).
    repeat case_decide; done.
Qed.

Lemma getModes_setMode_witness :
  getModeDescription "judge" = "Unknown Mode".
Proof.
  destruct getModes_setMode as (_ & _ & _ & Hunknown).
  apply Hunknown. unfold MODES.values. rewrite !not_elem_of_cons.
  repeat split; try discriminate. apply not_elem_of_nil.
Defined.

(** ** The deployment test script *)

Section Script.
Context {St : Type} `{BaseStore St}.

Lemma initialize_checkpointer (proc : Process) (self self' : MarriageCounselorAgent St) :
  initialize proc self = inr self' → checkpointer self' = checkpointer self.
Proof.
  unfold initialize. destruct (initialized self); [by intros [= <-] |].
  destruct (negb _ && negb _); [done |].
  destruct (initChatModel _ _ _); [done |]. by intros [= <-].
Qed.

Lemma mergedConfig_currentMode (self self' : MarriageCounselorAgent St) (config : Config.t) :
  currentMode self' = currentMode self → mergedConfig self' config = mergedConfig self config.
Proof. intros Hm. unfold mergedConfig, defaultConfigurable. by rewrite Hm. Qed.

(** A call of [invoke] leaves every conversation thread as it was, but the
    one named by the merged [thread_id]. *)
Lemma invoke_checkpointer_keys (proc : Process) (self : MarriageCounselorAgent St)
    (input : Input.t) (config : Config.t) (k : string) :
  is_Some (checkpointer (invoke proc self input config).1.2 !! k) →
  is_Some (checkpointer self !! k) ∨
  opt_get (Config.configurable (mergedConfig self config)) "thread_id" = JString k.
Proof.
  unfold invoke. destruct (initialize proc self) as [e|self'] eqn:Hi; [by left |].
  rewrite <- (mergedConfig_currentMode self self' config (initialize_currentMode _ _ _ Hi)).
  rewrite <- (initialize_checkpointer _ _ _ Hi).
  destruct (agents self' !! _) as [ag|]; [| by left].
  unfold agent_invoke.
  destruct (opt_get _ "thread_id") as [| |thread]; cbn [fst snd checkpointer]; try by left.
  destruct (react_loop _ _ _ _ _) as [[[e|msgs] s'] tr];
    cbn [fst snd checkpointer checkpoints]; [by left |].
  destruct (decide (thread = k)) as [->|Hne]; [by right |].
  rewrite lookup_insert_ne by done. by left.
Qed.

Lemma invoke_event_keys (proc : Process) (self : MarriageCounselorAgent St)
    (input : Input.t) (config : Config.t) (entry : string * ToolCallRecord)
    (ev : StoreEvent) :
  agents_ok self →
  entry ∈ (invoke proc self input config).2 → ev ∈ tc_events entry.2 →
  event_key ev = tool_userId config +:+ "_user" ∨
  event_key ev = tool_userId config +:+ "_wife".
Proof.
  intros Hok Hin Hev.
  destruct (invoke_calls proc self input config entry Hok Hin)
    as (self' & ag & Hi & Hag & Hcall).
  apply (initialize_agents_ok _ _ _ Hok) in Hi.
  destruct (Hi _ _ Hag) as [_ Hts].
  assert (Hts' : tools ag = createUserModeTools ∨ tools ag = createWifeModeTools ∨
                 tools ag = createSolomonModeTools) by tauto.
  rewrite <- (tool_userId_merged self' config).
  exact (tool_event_keys _ _ _ _ Hts' Hcall Hev).
Qed.

Lemma run_testCalls (proc : Process) (cases : list (string * string))
    (self : MarriageCounselorAgent St) :
  agents_ok self → currentMode self = MODES.SOLOMON →
  (∀ k, is_Some (checkpointer self !! k) → k = "king_solomon_wise_test_session") →
  currentMode (run proc self (map testCall cases)).1 = MODES.SOLOMON ∧
  (∀ k, is_Some (checkpointer (run proc self (map testCall cases)).1 !! k) →
        k = "king_solomon_wise_test_session") ∧
  (∀ entry ev, entry ∈ (run proc self (map testCall cases)).2 → ev ∈ tc_events entry.2 →
     event_key ev = "test_user_user" ∨ event_key ev = "test_user_wife").
Proof.
  revert self. induction cases as [|case rest IH]; intros self Hok Hm Hk.
  { repeat split; [done | done |]. intros entry ev Hin. by apply elem_of_nil in Hin. }
  cbn [map run testCall].
  set (input := {| Input.mode := JString case.1; Input.messages := _;
                   Input.input := _; Input.content := _ |}).
  set (config := {| Config.store := None; Config.configurable := _ |}).
  pose proof (invoke_agents_ok proc self input config Hok) as Hok'.
  pose proof (invoke_currentMode proc self input config) as Hm'.
  pose proof (invoke_checkpointer_keys proc self input config) as Hk'.
  pose proof (invoke_event_keys proc self input config) as Hev.
  destruct (invoke proc self input config) as [[r self'] tr]. cbn [fst snd] in *.
  assert (Hk'' : ∀ k, is_Some (checkpointer self' !! k) →
                      k = "king_solomon_wise_test_session").
  { intros k Hsome. destruct (Hk' k Hsome) as [?|Ht]; [by apply Hk |].
    rewrite mergedConfig_thread_id, Hm in Ht. by injection Ht as <-. }
  destruct (IH self' Hok' (eq_trans Hm' Hm) Hk'') as (IHm & IHk & IHev).
  destruct (run proc self' (map testCall rest)) as [self'' tr']. cbn [fst snd] in *.
  repeat split; [done | done |].
  intros entry ev [Hin|Hin]%elem_of_app Hin'; [| by eapply IHev].
  exact (Hev entry ev Hok Hin Hin').
Qed.
End Script.

(** X10: whatever the chat model answers, the deployment test script
    leaves the agent in Solomon's mode with at most one conversation
    thread, [king_solomon_wise_test_session]: its three test cases, which
    go to three different personas, all run on that thread; and every store
    access of the script goes to [test_user_user] or [test_user_wife]. *)
Theorem testDeploymentAgent_one_thread (proc : Process) :
  currentMode (testDeploymentAgent proc).1 = MODES.SOLOMON ∧
  (∀ k, is_Some (checkpointer (testDeploymentAgent proc).1 !! k) →
        k = "king_solomon_wise_test_session") ∧
  (∀ entry ev, entry ∈ (testDeploymentAgent proc).2 → ev ∈ tc_events entry.2 →
     event_key ev = "test_user_user" ∨ event_key ev = "test_user_wife").
Proof.
  unfold testDeploymentAgent.
  destruct (initialize proc constructor) as [e|agent] eqn:Hi.
  { repeat split; [| intros entry ev Hin; by apply elem_of_nil in Hin].
    intros k. cbn [fst checkpointer constructor]. rewrite lookup_empty.
    by intros [? ?]. }
  apply run_testCalls.
  - by apply (initialize_agents_ok _ _ _ constructor_agents_ok Hi).
  - by rewrite (initialize_currentMode _ _ _ Hi).
  - intros k. rewrite (initialize_checkpointer _ _ _ Hi).
    cbn [checkpointer constructor]. rewrite lookup_empty. by intros [? ?].
Qed.

Lemma testDeploymentAgent_one_thread_witness :
  let proc := demo_process (persona_model "She overspent" "I bought what we need") in
  is_Some (checkpointer (testDeploymentAgent proc).1 !! "king_solomon_wise_test_session") ∧
  ∀ k, is_Some (checkpointer (testDeploymentAgent proc).1 !! k) →
       k = "king_solomon_wise_test_session".
Proof.
  intros proc. split; [vm_compute; by eexists |].
  exact (proj1 (proj2 (testDeploymentAgent_one_thread proc))).
Defined.

(** ** Missing identities *)

Lemma opt_get_set_configurable (config : Config.t) (k k' : string) (v : JsVal) :
  opt_get (Config.configurable (set_configurable config k v)) k' =
    if decide (k = k') then v else opt_get (Config.configurable config) k'.
Proof.
  unfold set_configurable, opt_get. cbn [Config.configurable].
  destruct (decide (k = k')) as [->|Hne].
  - by rewrite lookup_insert_eq.
  - rewrite lookup_insert_ne by done.
    destruct (Config.configurable config) as [c|]; [done |].
    cbn [default]. by rewrite lookup_empty.
Qed.

Lemma lookup_set_configurable (config : Config.t) (k k' : string) (v : JsVal) :
  Config.configurable (set_configurable config k v) ≫= (.!! k') =
    if decide (k = k') then Some v else Config.configurable config ≫= (.!! k').
Proof.
  unfold set_configurable. cbn [Config.configurable mbind option_bind].
  destruct (decide (k = k')) as [->|Hne].
  - by rewrite lookup_insert_eq.
  - rewrite lookup_insert_ne by done.
    destruct (Config.configurable config) as [c|]; [done |].
    cbn [default]. by rewrite lookup_empty.
Qed.

Section Identity.
Context {St : Type} `{BaseStore St}.

Lemma initialize_prompts_ok (proc : Process) (self self' : MarriageCounselorAgent St) :
  prompts_ok self → initialize proc self = inr self' → prompts_ok self'.
Proof.
  unfold initialize. intros Hok.
  destruct (initialized self); [by intros [= <-] |].
  destruct (negb _ && negb _); [done |].
  destruct (initChatModel _ _ _) as [|model]; [done |]. intros [= <-].
  intros m ag. cbn [agents].
  destruct (decide (m = MODES.SOLOMON)) as [->|Hs].
  { rewrite lookup_insert_eq. by intros [= <-]. }
  rewrite lookup_insert_ne by done.
  destruct (decide (m = MODES.WIFE)) as [->|Hw].
  { rewrite lookup_insert_eq. by intros [= <-]. }
  rewrite lookup_insert_ne by done.
  destruct (decide (m = MODES.USER)) as [->|Hu].
  { rewrite lookup_insert_eq. by intros [= <-]. }
  rewrite lookup_insert_ne by done. apply Hok.
Qed.

(** The engine reads of its configuration, through the prompt function and
    the tools of a registered agent, only the store and the user id and
    the session id after the defaults are applied. *)
Lemma react_loop_same_identity (limit : nat) (ag : ReactAgent St) (m : string)
    (c1 c2 : Config.t) (msgs : list Message.t) (s : St) :
  prompt ag = getPromptFunction m →
  (tools ag = createUserModeTools ∨ tools ag = createWifeModeTools ∨
   tools ag = createSolomonModeTools) →
  Config.store c1 = Config.store c2 →
  tool_userId c1 = tool_userId c2 →
  js_or (opt_get (Config.configurable c1) "sessionId") "default_session" =
    js_or (opt_get (Config.configurable c2) "sessionId") "default_session" →
  react_loop limit ag c1 msgs s = react_loop limit ag c2 msgs s.
Proof.
  intros Hp Ht Hst Hu Hs. unfold tool_userId in Hu.
  revert msgs s. induction limit as [|n IH]; intros msgs s; [done |].
  cbn [react_loop].
  assert (Hprompt : prompt ag {| State.messages := msgs |} c1 =
                    prompt ag {| State.messages := msgs |} c2).
  { rewrite Hp. unfold getPromptFunction. by rewrite Hu, Hs. }
  rewrite Hprompt.
  destruct (llm ag _) as [text|nm args]; [done |].
  destruct (find_tool (tools ag) nm) as [t|] eqn:Hf; [| done].
  destruct (parse (schema t) args) as [input|]; [| done].
  assert (Hrun : func t input c1 s = func t input c2 s).
  { apply find_tool_elem in Hf.
    destruct Ht as [Ht|[Ht|Ht]]; rewrite Ht in Hf;
      apply list_elem_of_singleton in Hf; subst t; cbn [func];
      unfold saveUserStory, saveWifeStory, getBothStories; by rewrite Hst, Hu. }
  rewrite Hrun.
  destruct (func t input c2 s) as [[[e|out] s'] evs]; [done |].
  by rewrite IH.
Qed.

Lemma agent_invoke_same_identity (limit : nat) (ag : ReactAgent St) (m : string)
    (input : State.t) (c1 c2 : Config.t) (w : World St) :
  prompt ag = getPromptFunction m →
  (tools ag = createUserModeTools ∨ tools ag = createWifeModeTools ∨
   tools ag = createSolomonModeTools) →
  opt_get (Config.configurable c1) "thread_id" =
    opt_get (Config.configurable c2) "thread_id" →
  tool_userId c1 = tool_userId c2 →
  js_or (opt_get (Config.configurable c1) "sessionId") "default_session" =
    js_or (opt_get (Config.configurable c2) "sessionId") "default_session" →
  agent_invoke limit ag input c1 w = agent_invoke limit ag input c2 w.
Proof.
  intros Hp Ht Hth Hu Hs. unfold agent_invoke. rewrite Hth.
  destruct (opt_get (Config.configurable c2) "thread_id") as [| |thread]; try done.
  by rewrite (react_loop_same_identity limit ag m
                (engine_config ag c1) (engine_config ag c2)).
Qed.

(** Two calls of [invoke] whose configurations give the same thread, the
    same user id and the same session id once the defaults are applied are
    the same call: same response, same object afterwards, same tool
    calls. *)
Lemma invoke_same_identity (proc : Process) (self : MarriageCounselorAgent St)
    (input : Input.t) (c1 c2 : Config.t) :
  agents_ok self → prompts_ok self →
  opt_get (Config.configurable (mergedConfig self c1)) "thread_id" =
    opt_get (Config.configurable (mergedConfig self c2)) "thread_id" →
  tool_userId c1 = tool_userId c2 →
  js_or (opt_get (Config.configurable c1) "sessionId") "default_session" =
    js_or (opt_get (Config.configurable c2) "sessionId") "default_session" →
  invoke proc self input c1 = invoke proc self input c2.
Proof.
  intros Hok Hp Hth Hu Hs. unfold invoke.
  destruct (initialize proc self) as [e|self'] eqn:Hi; [done |].
  pose proof (initialize_currentMode _ _ _ Hi) as Hm.
  rewrite !(mergedConfig_currentMode self self' _ Hm).
  destruct (agents self' !! resolve_mode self' input) as [ag|] eqn:Hag; [| done].
  destruct (initialize_agents_ok _ _ _ Hok Hi _ _ Hag) as [_ Ht].
  pose proof (initialize_prompts_ok _ _ _ Hp Hi _ _ Hag) as Hpr.
  rewrite (agent_invoke_same_identity _ ag (resolve_mode self' input) _
             (mergedConfig self c1) (mergedConfig self c2)); [done | done | | done | |].
  - destruct Ht as [[_ Ht]|[[_ Ht]|[_ Ht]]]; auto.
  - by rewrite !tool_userId_merged.
  - by rewrite !sessionId_merged.
Qed.

(** On a new object whose chat model answers at once, [invoke] returns
    the response, whatever the caller's configuration holds beside a
    [thread_id]. *)
Lemma invoke_answers (proc : Process) (self : MarriageCounselorAgent St)
    (input : Input.t) (config : Config.t) (model : ChatModel) (text : string) :
  initialized self = false →
  truthy (OPENAI_API_KEY proc) = true →
  initChatModel proc "gpt-4o" "openai" = inr model →
  (∀ instruction, model instruction = Answer text) →
  0 < recursionLimit proc →
  currentMode self ∈ MODES.values →
  Config.configurable config ≫= (.!! "thread_id") = None →
  (invoke proc self input config).1.1 =
    inr {| State.messages :=
             (default [] (checkpointer self !!
                            threadKey (currentMode self)
                              (opt_get (Config.configurable config) "sessionId"))
              ++ input_messages input ++ [ai_message text])%list |}.
Proof.
  intros Hinit Hkey Hmodel Hans Hlimit Hmode Hnone.
  unfold invoke, initialize. rewrite Hinit, Hkey. cbn [negb andb]. rewrite Hmodel.
  set (self' := {| currentMode := currentMode self; agents := _ |}).
  assert (Hag : ∃ ag, agents self' !! resolve_mode self' input = Some ag ∧ llm ag = model).
  { pose proof (resolve_mode_values self' input Hmode) as Hin.
    unfold MODES.values in Hin. rewrite !elem_of_cons, elem_of_nil in Hin.
    destruct Hin as [->|[->|[->|[]]]]; subst self'; cbn [agents].
    - rewrite !lookup_insert_ne, lookup_insert_eq by discriminate. by eexists.
    - rewrite lookup_insert_ne, lookup_insert_eq by discriminate. by eexists.
    - rewrite lookup_insert_eq. by eexists. }
  destruct Hag as (ag & -> & Hllm).
  unfold agent_invoke. rewrite mergedConfig_thread_id, Hnone.
  destruct (recursionLimit proc) as [|n]; [lia |].
  cbn [react_loop]. rewrite Hllm, Hans.
  cbn [fst State.messages checkpoints]. subst self'. cbn [checkpointer currentMode].
  by rewrite app_assoc.
Qed.
End Identity.

Lemma constructor_prompts_ok : prompts_ok constructor.
Proof. intros m ag. unfold constructor. cbn [agents]. by rewrite lookup_empty. Qed.

(** C4, as the code has it: a call without a userId or without a
    sessionId is not refused. For a missing or empty userId the tools of the
    turn work under the user id [default_user], so that every store access
    of the turn goes to [default_user_user] or [default_user_wife]; for a
    missing or empty sessionId the instruction names the session
    [default_session], and the derived thread key ends in [default].
    The call is the call that states these defaults: without a userId
    [invoke] gives the response, the object and the tool calls it gives
    when the caller passes [userId: default_user], and without a sessionId
    (and without a [thread_id]) those it gives when the caller passes
    [sessionId: default_session] and the thread of the current mode and
    [default]. And on a new object whose chat model answers at once,
    [invoke] returns that answer after the history of the thread and the
    input, whatever ids the configuration gives or leaves out. *)
Theorem invoke_default_identity {St} `{BaseStore St} (proc : Process)
    (self : MarriageCounselorAgent St) (input : Input.t) (config : Config.t) :
  agents_ok self →
  (truthy (opt_get (Config.configurable config) "userId") = false →
     tool_userId (mergedConfig self config) = "default_user" ∧
     ∀ entry ev,
       entry ∈ (invoke proc self input config).2 → ev ∈ tc_events entry.2 →
       event_key ev = "default_user_user" ∨ event_key ev = "default_user_wife") ∧
  (truthy (opt_get (Config.configurable config) "sessionId") = false →
     js_or (opt_get (Config.configurable (mergedConfig self config)) "sessionId")
           "default_session" = "default_session" ∧
     (Config.configurable config ≫= (.!! "thread_id") = None →
        opt_get (Config.configurable (mergedConfig self config)) "thread_id" =
          JString (currentMode self +:+ "_default"))) ∧
  (prompts_ok self →
     (truthy (opt_get (Config.configurable config) "userId") = false →
        invoke proc self input config =
          invoke proc self input
            (set_configurable config "userId" (JString "default_user"))) ∧
     (truthy (opt_get (Config.configurable config) "sessionId") = false →
      Config.configurable config ≫= (.!! "thread_id") = None →
        invoke proc self input config =
          invoke proc self input
            (set_configurable
               (set_configurable config "sessionId" (JString "default_session"))
               "thread_id" (JString (currentMode self +:+ "_default"))))) ∧
  (∀ model text,
     initialized self = false →
     truthy (OPENAI_API_KEY proc) = true →
     initChatModel proc "gpt-4o" "openai" = inr model →
     (∀ instruction, model instruction = Answer text) →
     0 < recursionLimit proc →
     currentMode self ∈ MODES.values →
     Config.configurable config ≫= (.!! "thread_id") = None →
     (invoke proc self input config).1.1 =
       inr {| State.messages :=
                (default [] (checkpointer self !!
                               threadKey (currentMode self)
                                 (opt_get (Config.configurable config) "sessionId"))
                 ++ input_messages input ++ [ai_message text])%list |}).
Proof.
  intros Hok. split; [| split; [| split]].
  - intros Hu. rewrite tool_userId_merged. unfold tool_userId at 1.
    rewrite (js_or_falsy _ _ Hu). split; [done |].
    intros entry ev Hin Hev.
    destruct (invoke_calls proc self input config entry Hok Hin)
      as (self' & ag & Hi & Hag & Hcall).
    apply (initialize_agents_ok _ _ _ Hok) in Hi.
    assert (Hid : tool_userId (engine_config ag (mergedConfig self' config)) = "default_user").
    { change (tool_userId (mergedConfig self' config) = "default_user").
      rewrite tool_userId_merged. unfold tool_userId. by rewrite (js_or_falsy _ _ Hu). }
    destruct (call_of_wired self' _ ag _ _ _ Hi Hag Hcall Hev)
      as [(_ & _ & v & ->)|[(_ & _ & v & ->)|(_ & _ & [->| ->])]];
      cbn [event_key]; rewrite Hid; auto.
  - intros Hs. rewrite sessionId_merged, (js_or_falsy _ _ Hs). split; [done |].
    intros Hnone. rewrite mergedConfig_thread_id, Hnone. unfold threadKey.
    by rewrite (js_or_falsy _ _ Hs).
  - intros Hp. split.
    + intros Hu. apply invoke_same_identity; [done | done | | |].
      * rewrite !mergedConfig_thread_id, lookup_set_configurable,
          !opt_get_set_configurable.
        by repeat (destruct (decide _) as [|]; try discriminate).
      * unfold tool_userId. rewrite opt_get_set_configurable.
        destruct (decide _) as [|]; [| done]. by rewrite (js_or_falsy _ _ Hu).
      * rewrite opt_get_set_configurable.
        by destruct (decide _) as [|]; try discriminate.
    + intros Hs Hnone. apply invoke_same_identity; [done | done | | |].
      * rewrite !mergedConfig_thread_id, Hnone, lookup_set_configurable.
        destruct (decide _) as [|]; [| done].
        unfold threadKey. by rewrite (js_or_falsy _ _ Hs).
      * unfold tool_userId. rewrite !opt_get_set_configurable.
        by repeat (destruct (decide _) as [|]; try discriminate).
      * rewrite !opt_get_set_configurable.
        destruct (decide ("thread_id" = "sessionId")) as [|]; [discriminate |].
        destruct (decide _) as [|]; [| done]. by rewrite (js_or_falsy _ _ Hs).
  - intros model text. apply invoke_answers.
Qed.

Lemma invoke_default_identity_witness :
  let proc := demo_process (answering "Tell me more.") in
  let input := say JUndefined "hi" in
  tool_userId (mergedConfig constructor no_config) = "default_user" ∧
  js_or (opt_get (Config.configurable (mergedConfig constructor no_config)) "sessionId")
        "default_session" = "default_session" ∧
  opt_get (Config.configurable (mergedConfig constructor no_config)) "thread_id" =
    JString (currentMode constructor +:+ "_default") ∧
  invoke proc constructor input no_config =
    invoke proc constructor input
      (set_configurable no_config "userId" (JString "default_user")) ∧
  invoke proc constructor input no_config =
    invoke proc constructor input
      (set_configurable
         (set_configurable no_config "sessionId" (JString "default_session"))
         "thread_id" (JString (currentMode constructor +:+ "_default"))) ∧
  (invoke proc constructor input no_config).1.1 =
    inr {| State.messages :=
             (default [] (checkpointer constructor !!
                            threadKey (currentMode constructor)
                              (opt_get (Config.configurable no_config) "sessionId"))
              ++ input_messages input ++ [ai_message "Tell me more."])%list |}.
Proof.
  intros proc input.
  destruct (invoke_default_identity proc constructor input no_config
              constructor_agents_ok) as (Hu & Hs & Hsame & Hrun).
  destruct (Hu eq_refl) as [Hid _]. destruct (Hs eq_refl) as [Hsid Hthread].
  destruct (Hsame constructor_prompts_ok) as [Hsame_user Hsame_session].
  split; [exact Hid |]. split; [exact Hsid |]. split; [exact (Hthread eq_refl) |].
  split; [exact (Hsame_user eq_refl) |]. split; [exact (Hsame_session eq_refl eq_refl) |].
  apply (Hrun (answering "Tell me more.") "Tell me more.");
    [reflexivity | reflexivity | reflexivity | reflexivity | simpl; lia | | reflexivity].
  vm_compute. repeat constructor.
Defined.

(** Counterexample to C4 as specified: a call that gives neither id
    returns a response, and the Advocate's tool runs during it and writes
    under the default user id. *)
Lemma invoke_missing_identity_counterexample :
  let model := scripted [CallTool "save_user_story" (story_input "She overspent")] in
  let '(response, self, calls) :=
    invoke (demo_process model) constructor (say (JString "USER") "hi") no_config in
  (∃ state, response = inr state) ∧
  calls = [ (MODES.USER,
             {| tc_name := "save_user_story";
                tc_events := [ EvPut ["stories"] "default_user_user"
                                     {| content := JString "She overspent" |} ] |}) ] ∧
  data (store self) !! (["stories"], "default_user_user") =
    Some {| content := JString "She overspent" |}.
Proof. vm_compute. split; [by eexists | split; reflexivity]. Qed.

(** * Properties of the command-line variants *)

(** ** Their tools *)

Section CliTools.
Context {St : Type} `{BaseStore St}.

(** X11: the tools of the interactive class refuse to work without a user
    id: with a store but a missing or empty userId each of them throws
    "userId is required in the config" before the store is touched. *)
Theorem cli_tools_require_userId (input : JsObj) (config : Config.t) (s : St)
    (h : StoreHandle) :
  Config.store config = Some h →
  truthy (opt_get (Config.configurable config) "userId") = false →
  let e := Error "userId is required in the config" in
  Cli.saveUserStory input config s = (inl e, s, []) ∧
  Cli.saveWifeStory input config s = (inl e, s, []) ∧
  Cli.getBothStories input config s = (inl e, s, []).
Proof.
  intros Hs Hu. unfold Cli.saveUserStory, Cli.saveWifeStory, Cli.getBothStories.
  by rewrite Hs, Hu.
Qed.

Lemma cli_saveUserStory_events (input : JsObj) (config : Config.t) (s : St)
    (ev : StoreEvent) :
  ev ∈ (Cli.saveUserStory input config s).2 →
  ∃ v, ev = EvPut ["stories"]
                  (js_to_string (opt_get (Config.configurable config) "userId") +:+ "_user") v.
Proof.
  unfold Cli.saveUserStory. destruct (Config.store config); [| by intros ?%elem_of_nil].
  destruct (truthy _); cbn [negb]; [| by intros ?%elem_of_nil].
  unfold bind, try_catch, put, throw, ret.
  destruct (store_put _ _ _ s); cbn [snd app]; rewrite list_elem_of_singleton;
    intros ->; by eexists.
Qed.

Lemma cli_saveWifeStory_events (input : JsObj) (config : Config.t) (s : St)
    (ev : StoreEvent) :
  ev ∈ (Cli.saveWifeStory input config s).2 →
  ∃ v, ev = EvPut ["stories"]
                  (js_to_string (opt_get (Config.configurable config) "userId") +:+ "_wife") v.
Proof.
  unfold Cli.saveWifeStory. destruct (Config.store config); [| by intros ?%elem_of_nil].
  destruct (truthy _); cbn [negb]; [| by intros ?%elem_of_nil].
  unfold bind, try_catch, put, throw, ret.
  destruct (store_put _ _ _ s); cbn [snd app]; rewrite list_elem_of_singleton;
    intros ->; by eexists.
Qed.

Lemma cli_getBothStories_events (input : JsObj) (config : Config.t) (s : St)
    (ev : StoreEvent) :
  ev ∈ (Cli.getBothStories input config s).2 →
  ev = EvGet ["stories"]
             (js_to_string (opt_get (Config.configurable config) "userId") +:+ "_user") ∨
  ev = EvGet ["stories"]
             (js_to_string (opt_get (Config.configurable config) "userId") +:+ "_wife").
Proof.
  unfold Cli.getBothStories. destruct (Config.store config); [| by intros ?%elem_of_nil].
  destruct (truthy _); cbn [negb]; [| by intros ?%elem_of_nil].
  unfold bind, try_catch, get, ret.
  destruct (store_get _ (_ +:+ "_user") s), (store_get _ (_ +:+ "_wife") s);
    cbn [snd app]; rewrite !elem_of_cons, elem_of_nil; tauto.
Qed.
End CliTools.

Lemma cli_tools_require_userId_witness :
  Cli.saveUserStory (story_input "a")
      {| Config.store := Some SharedStore; Config.configurable := None |} empty_store =
    (inl (Error "userId is required in the config"), empty_store, []).
Proof.
  apply (cli_tools_require_userId (story_input "a")
           {| Config.store := Some SharedStore; Config.configurable := None |}
           empty_store SharedStore); reflexivity.
Defined.

Section KvTools.
Context {St : Type} `{Kv.KeyValueStore St}.

Lemma kv_getBothStories_text (stories : list (option Story)) :
  (let userStory := Kv.story_content stories 0 in
   let wifeStory := Kv.story_content stories 1 in
   let result := "📜 BOTH PERSPECTIVES:\n\n" in
   let result :=
     if truthy userStory
     then result +:+ "👤 **User's Grievance:** " +:+ js_to_string userStory +:+ "\n\n"
     else result +:+ "👤 **User's Grievance:** No story shared yet\n\n" in
   if truthy wifeStory
   then result +:+ "👩 **Wife's Perspective:** " +:+ js_to_string wifeStory
   else result +:+ "👩 **Wife's Perspective:** No story shared yet") =
  cli_combined_text (kv_side_text (mjoin (stories !! 0%nat)))
                    (kv_side_text (mjoin (stories !! 1%nat))).
Proof.
  unfold Kv.story_content, cli_combined_text.
  destruct (stories !! 0%nat) as [[[[| |a]]|]|], (stories !! 1%nat) as [[[[| |b]]|]|];
    cbn [mjoin option_join kv_side_text truthy js_to_string content];
    repeat case_decide; by rewrite ?append_assoc.
Qed.

(** X12: the tools over the key/value store. Without a user id each of
    them throws "userId is required" before the store is touched; with
    one, a fault of the store during [mset] or [mget] reaches the caller of
    the tool unchanged, for the combined read too; and the combined read
    reports each side from what [mget] returned, the user side first. *)
Theorem kv_tools_behaviour (input : JsObj) (config : Config.t) (s : St)
    (h : StoreHandle) :
  Config.store config = Some h →
  (truthy (opt_get (Config.configurable config) "userId") = false →
     let e := Error "userId is required" in
     Kv.saveUserStory input config s = (inl e, s, []) ∧
     Kv.saveWifeStory input config s = (inl e, s, []) ∧
     Kv.getBothStories input config s = (inl e, s, [])) ∧
  (∀ u, opt_get (Config.configurable config) "userId" = JString u → u ≠ "" →
     let v := {| content := opt_get (Some input) "story" |} in
     (∀ e, Kv.store_mset [(u +:+ "_user", v)] s = inl e →
           (Kv.saveUserStory input config s).1.1 = inl e) ∧
     (∀ e, Kv.store_mset [(u +:+ "_wife", v)] s = inl e →
           (Kv.saveWifeStory input config s).1.1 = inl e) ∧
     (∀ e, Kv.store_mget [u +:+ "_user"; u +:+ "_wife"] s = inl e →
           (Kv.getBothStories input config s).1.1 = inl e) ∧
     (∀ stories, Kv.store_mget [u +:+ "_user"; u +:+ "_wife"] s = inr stories →
           Kv.getBothStories input config s =
             (inr (cli_combined_text (kv_side_text (mjoin (stories !! 0%nat)))
                                     (kv_side_text (mjoin (stories !! 1%nat)))),
              s, [EvGet [] (u +:+ "_user"); EvGet [] (u +:+ "_wife")]))).
Proof.
  intros Hs. split.
  - intros Hu. unfold Kv.saveUserStory, Kv.saveWifeStory, Kv.getBothStories.
    by rewrite Hs, Hu.
  - intros u Hu Hne v.
    assert (Ht : truthy (JString u) = true) by (simpl; by case_decide).
    unfold Kv.saveUserStory, Kv.saveWifeStory, Kv.getBothStories.
    rewrite Hs, Hu, Ht. cbn [negb js_to_string].
    unfold bind, Kv.mset, Kv.mget, ret. repeat split.
    + intros e He. fold v. by rewrite He.
    + intros e He. fold v. by rewrite He.
    + intros e He. by rewrite He.
    + intros stories Hst. rewrite Hst. cbn [app map]. do 2 f_equal.
      f_equal. apply kv_getBothStories_text.
Qed.
End KvTools.

Lemma kv_tools_behaviour_witness :
  let config := tool_config "u1" in
  let s1 := (Kv.saveUserStory (story_input "She overspent") config
               {| kv_data := ∅; kv_down := false |}).1.2 in
  let s2 := (Kv.saveWifeStory (story_input "I bought what we need") config s1).1.2 in
  Kv.getBothStories ∅ config s2 =
    (inr (cli_combined_text "She overspent" "I bought what we need"), s2,
     [EvGet [] "u1_user"; EvGet [] "u1_wife"]) ∧
  (Kv.getBothStories ∅ config {| kv_data := ∅; kv_down := true |}).1.1 =
    inl (StoreFault "store unavailable").
Proof.
  intros config s1 s2.
  destruct (kv_tools_behaviour ∅ config s2 SharedStore eq_refl) as [_ Hu].
  destruct (Hu "u1" eq_refl ltac:(discriminate)) as (_ & _ & _ & Hread).
  destruct (kv_tools_behaviour ∅ config {| kv_data := ∅; kv_down := true |}
              SharedStore eq_refl) as [_ Hu'].
  destruct (Hu' "u1" eq_refl ltac:(discriminate)) as (_ & _ & Hfault & _).
  split.
  - exact (Hread _ eq_refl).
  - exact (Hfault _ eq_refl).
Defined.

(** ** The interactive session *)

Section CliSession.
Context {St : Type} `{BaseStore St}.

Lemma cli_constructor_inv (uuid : string) (fresh : St) :
  cli_inv uuid (Cli.constructor uuid fresh).
Proof.
  split; [done |]. split; [done |]. intros m ag. cbn [Cli.agents Cli.constructor].
  by rewrite lookup_empty.
Qed.

Lemma cli_initialize_inv (proc : Process) (uuid : string) (self self' : Cli.t St) :
  cli_inv uuid self → Cli.initialize proc self = Some self' →
  cli_inv uuid self' ∧
  Cli.currentMode self' = Cli.currentMode self ∧
  Cli.isRunning self' = Cli.isRunning self.
Proof.
  intros (Hs & Hu & Hok). unfold Cli.initialize.
  destruct (negb _); [done |].
  destruct (initChatModel _ _ _) as [|model]; [done |]. intros [= <-].
  split; [| done]. split; [done |]. split; [done |].
  intros mode ag. cbn [Cli.agents]. rewrite !lookup_insert.
  repeat case_decide; subst;
    try (intros [= <-]; cbn [tools agent_store Cli.createReactAgent]; tauto).
  apply Hok.
Qed.

Lemma cli_switchMode_inv (uuid : string) (self self' : Cli.t St)
    (answers answers' : Cli.Answers) :
  cli_inv uuid self → Cli.switchMode self answers = Some (self', answers') →
  cli_inv uuid self' ∧ Cli.typed answers' = Cli.typed answers.
Proof.
  intros Hinv. unfold Cli.switchMode.
  destruct (Cli.chosen answers) as [|sel rest]; [done |].
  case_decide; intros [= <- <-]; by split.
Qed.

(** The configuration of a turn, key by key. *)
Lemma cli_chat_config (self : Cli.t St) :
  opt_get (Config.configurable (Cli.chat_config self)) "thread_id" =
    JString (Cli.currentMode self +:+ "_" +:+ Cli.sessionId self) ∧
  opt_get (Config.configurable (Cli.chat_config self)) "userId" =
    JString (Cli.userId self) ∧
  opt_get (Config.configurable (Cli.chat_config self)) "sessionId" =
    JString (Cli.sessionId self).
Proof. repeat split; reflexivity. Qed.

Lemma cli_call_policy (self : Cli.t St) (ag : ReactAgent St) (call : ToolCallRecord)
    (ev : StoreEvent) :
  cli_agents_ok self → Cli.userId self = "user_1" →
  Cli.agents self !! Cli.currentMode self = Some ag →
  call_of (tools ag) (engine_config ag (Cli.chat_config self)) call →
  ev ∈ tc_events call →
  (Cli.currentMode self = MODES.USER ∧ tc_name call = "save_user_story" ∧
     ∃ v, ev = EvPut ["stories"] "user_1_user" v) ∨
  (Cli.currentMode self = MODES.WIFE ∧ tc_name call = "save_wife_story" ∧
     ∃ v, ev = EvPut ["stories"] "user_1_wife" v) ∨
  (Cli.currentMode self = MODES.SOLOMON ∧ tc_name call = "get_both_stories" ∧
     (ev = EvGet ["stories"] "user_1_user" ∨ ev = EvGet ["stories"] "user_1_wife")).
Proof.
  intros Hok Hu Hag (t & input & s & Ht & Hname & Hev) Hin.
  rewrite Hev in Hin. rewrite Hname.
  assert (Hid : js_to_string
                  (opt_get (Config.configurable (engine_config ag (Cli.chat_config self)))
                           "userId") = "user_1").
  { change (js_to_string (JString (Cli.userId self)) = "user_1"). by rewrite Hu. }
  destruct (Hok _ ag Hag) as [_ [[Hm Hts]|[[Hm Hts]|[Hm Hts]]]];
    rewrite Hts in Ht; apply list_elem_of_singleton in Ht; subst t;
    cbn [func name] in *.
  - left. repeat split; [done |].
    apply cli_saveUserStory_events in Hin as [v ->]. rewrite Hid. by eexists.
  - right; left. repeat split; [done |].
    apply cli_saveWifeStory_events in Hin as [v ->]. rewrite Hid. by eexists.
  - right; right. repeat split; [done |].
    apply cli_getBothStories_events in Hin as [->| ->]; rewrite Hid; auto.
Qed.

Lemma cli_chat_returned (proc : Process) (uuid : string) (self self' : Cli.t St)
    (answers answers' : Cli.Answers) (turns : list Cli.Turn) :
  cli_inv uuid self →
  Cli.chat proc self answers = Cli.Returned self' answers' turns →
  cli_inv uuid self' ∧
  Forall (turn_isolated uuid) turns ∧
  Forall turn_store_policy turns ∧
  length (Cli.typed answers') < length (Cli.typed answers).
Proof.
  intros Hinv. pose proof Hinv as (Hs & Hu & Hok). unfold Cli.chat.
  destruct (Cli.agents self !! Cli.currentMode self) as [ag|] eqn:Hag; [| done].
  destruct (Cli.typed answers) as [|message rest] eqn:Hty; [done |].
  destruct (decide (toLowerCase message = "exit")) as [|Hexit].
  { intros [= <- <- <-].
    split; [exact Hinv | split; [constructor | split; [constructor | cbn; lia]]]. }
  destruct (decide (toLowerCase message = "menu")) as [|Hmenu].
  { destruct (Cli.switchMode self _) as [[self1 answers1]|] eqn:Hsw; [| done].
    intros [= <- <- <-].
    destruct (cli_switchMode_inv uuid _ _ _ _ Hinv Hsw) as [Hinv1 Hty1].
    split; [exact Hinv1 | split; [constructor | split; [constructor |]]].
    rewrite Hty1. cbn. lia. }
  destruct (decide (trim message = "")) as [|Hblank].
  { intros [= <- <- <-].
    split; [exact Hinv | split; [constructor | split; [constructor | cbn; lia]]]. }
  pose proof (agent_invoke_calls (recursionLimit proc) ag
                {| State.messages :=
                     [ {| Message.role := "user"; Message.content := message |} ] |}
                (Cli.chat_config self)
                {| checkpoints := Cli.checkpointer self; facts := Cli.store self |}) as Hcalls.
  destruct (agent_invoke _ _ _ _ _) as [[response w] calls]. cbn [snd] in Hcalls.
  intros [= <- <- <-]. split; [exact Hinv |]. split; [| split; [| cbn; lia]].
  - constructor; [| constructor].
    unfold turn_isolated. cbn [Cli.turn_mode Cli.turn_config Cli.turn_message].
    split; [| split; [| split; [| split; [| split; [done | split; [done | split; [done |]]]]]]].
    + destruct (Hok _ ag Hag) as [_ [[-> _]|[[-> _]|[-> _]]]];
        unfold MODES.values; rewrite !elem_of_cons; auto.
    + rewrite (proj1 (cli_chat_config self)). by rewrite Hs.
    + rewrite (proj1 (proj2 (cli_chat_config self))). by rewrite Hu.
    + rewrite (proj2 (proj2 (cli_chat_config self))). by rewrite Hs.
    + intros history. unfold Cli.getPromptFunction, session_info.
      rewrite (proj1 (proj2 (cli_chat_config self))),
              (proj2 (proj2 (cli_chat_config self))), Hs, Hu. reflexivity.
  - constructor; [| constructor]. intros call ev Hcall Hev.
    cbn [Cli.turn_mode Cli.turn_calls] in *.
    apply (cli_call_policy self ag call ev Hok Hu Hag); [| done].
    by apply (proj1 (List.Forall_forall _ _) Hcalls), list_elem_of_In.
Qed.

Lemma cli_chat_loop_spec (proc : Process) (uuid : string) (fuel : nat)
    (self : Cli.t St) (answers : Cli.Answers) :
  cli_inv uuid self →
  Forall (turn_isolated uuid) (Cli.chat_loop fuel proc self answers).2 ∧
  Forall turn_store_policy (Cli.chat_loop fuel proc self answers).2 ∧
  (length (Cli.typed answers) < fuel →
     (Cli.chat_loop fuel proc self answers).1 ≠ Cli.OutOfFuel) ∧
  (∀ final, (Cli.chat_loop fuel proc self answers).1 = Cli.Finished final →
     Cli.isRunning final = false).
Proof.
  revert self answers. induction fuel as [|n IH]; intros self answers Hinv.
  { cbn. repeat split; try constructor; [lia | done]. }
  cbn [Cli.chat_loop]. destruct (Cli.isRunning self) eqn:Hrun.
  2: { cbn. repeat split; try constructor; try done. by intros final [= <-]. }
  case_decide. { cbn. repeat split; try constructor; done. }
  destruct (Cli.chat proc self answers) as [|self1|self1 answers1 turns] eqn:Hchat;
    try (cbn; repeat split; try constructor; done).
  destruct (cli_chat_returned _ _ _ _ _ _ _ Hinv Hchat) as (Hinv1 & Hiso & Hpol & Hlen).
  destruct (IH self1 answers1 Hinv1) as (IHiso & IHpol & IHfuel & IHfin).
  destruct (Cli.chat_loop n proc self1 answers1) as [outcome turns']. cbn [fst snd] in *.
  repeat split; try (by apply Forall_app).
  - intros Hlt. apply IHfuel. lia.
  - done.
Qed.


(** X14: in an interactive session the store is written only by
    [save_user_story] in a turn of the Advocate, under [user_1_user], and
    by [save_wife_story] in a turn of the OpposingRolePlay persona, under
    [user_1_wife], and read only by [get_both_stories] in a turn of
    Solomon. *)
Theorem cli_turns_store_policy (proc : Process) (uuid : string) (fresh : St)
    (answers : Cli.Answers) :
  Forall turn_store_policy (Cli.main proc uuid fresh answers).2.
Proof.
  unfold Cli.main.
  destruct (Cli.initialize proc _) as [self|] eqn:Hi; [| constructor].
  destruct (cli_initialize_inv _ _ _ _ (cli_constructor_inv uuid fresh) Hi) as [Hinv _].
  unfold Cli.start.
  destruct (Cli.switchMode _ answers) as [[self1 answers1]|] eqn:Hsw; [| constructor].
  assert (Hinv0 : cli_inv uuid (Cli.set_isRunning self true)) by apply Hinv.
  destruct (cli_switchMode_inv uuid _ _ _ _ Hinv0 Hsw) as [Hinv1 _].
  apply (cli_chat_loop_spec proc uuid _ self1 answers1 Hinv1).
Qed.

(** X15: how a session ends. The program stays within its bound; it ends
    its loop only with the running flag cleared; choosing [exit] in the
    first menu ends it before any turn; and so does typing [exit], in any
    letter case, as the first message, whatever answers follow. *)
Theorem cli_session_end (proc : Process) (self : Cli.t St) (answers : Cli.Answers)
    (uuid : string) :
  cli_inv uuid self →
  (Cli.start proc self answers).1 ≠ Cli.OutOfFuel ∧
  (∀ final, (Cli.start proc self answers).1 = Cli.Finished final →
     Cli.isRunning final = false) ∧
  (∀ more, Cli.chosen answers = "exit" :: more →
     Cli.start proc self answers =
       (Cli.Finished (Cli.set_isRunning (Cli.set_isRunning self true) false), [])) ∧
  (∀ sel more message rest,
     Cli.chosen answers = sel :: more → sel ≠ "exit" → sel ≠ "" →
     is_Some (Cli.agents self !! sel) →
     Cli.typed answers = message :: rest → toLowerCase message = "exit" →
     Cli.start proc self answers =
       (Cli.Finished
          (Cli.set_isRunning (Cli.set_currentMode (Cli.set_isRunning self true) sel) false),
        [])).
Proof.
  intros Hinv. unfold Cli.start.
  assert (Hinv0 : cli_inv uuid (Cli.set_isRunning self true)) by apply Hinv.
  repeat split.
  - destruct (Cli.switchMode _ answers) as [[self1 answers1]|] eqn:Hsw; [| done].
    destruct (cli_switchMode_inv uuid _ _ _ _ Hinv0 Hsw) as [Hinv1 _].
    apply (cli_chat_loop_spec proc uuid _ self1 answers1 Hinv1). lia.
  - destruct (Cli.switchMode _ answers) as [[self1 answers1]|] eqn:Hsw; [| done].
    destruct (cli_switchMode_inv uuid _ _ _ _ Hinv0 Hsw) as [Hinv1 _].
    apply (cli_chat_loop_spec proc uuid _ self1 answers1 Hinv1).
  - intros more Hch. unfold Cli.switchMode. rewrite Hch.
    by case_decide.
  - intros sel more message rest Hch Hsel Hne [ag Hag] Hty Hexit.
    unfold Cli.switchMode. rewrite Hch. case_decide; [done |].
    cbn [Cli.typed]. rewrite Hty. cbn [length Cli.chat_loop].
    cbn [Cli.isRunning Cli.set_currentMode Cli.currentMode Cli.set_isRunning].
    case_decide; [done |]. unfold Cli.chat.
    cbn [Cli.agents Cli.set_currentMode Cli.currentMode Cli.set_isRunning Cli.typed].
    rewrite Hag. case_decide; [| done]. reflexivity.
Qed.
End CliSession.

Lemma cli_session_end_witness :
  let self := Cli.constructor "0e5f" empty_store in
  Cli.start (demo_process (scripted [])) self
            {| Cli.typed := ["hello"]; Cli.chosen := ["exit"; MODES.USER] |} =
    (Cli.Finished (Cli.set_isRunning (Cli.set_isRunning self true) false), []).
Proof.
  intros self.
  destruct (cli_session_end (demo_process (scripted [])) self
              {| Cli.typed := ["hello"]; Cli.chosen := ["exit"; MODES.USER] |} "0e5f"
              (cli_constructor_inv "0e5f" empty_store)) as (_ & _ & Hexit & _).
  exact (Hexit [MODES.USER] eq_refl).
Defined.

(** A session: three personas, two switches, a blank line and [Exit]. *)
Example cli_session_example :
  let answers :=
    {| Cli.typed := [ "She spends too much"; "menu"; "I only buy what we need"; "MENU";
                      "Judge us"; "   "; "Exit"; "never read" ];
       Cli.chosen := [ MODES.USER; MODES.WIFE; MODES.SOLOMON ] |} in
  let '(outcome, turns) :=
    Cli.main (demo_process (persona_model "She overspent" "I bought what we need"))
             "0e5f" empty_store answers in
  outcome_control outcome = Some (1, MODES.SOLOMON, false) ∧
  map turn_control turns =
    [ (MODES.USER, "She spends too much"); (MODES.WIFE, "I only buy what we need");
      (MODES.SOLOMON, "Judge us") ] ∧
  map (fun t => opt_get (Config.configurable (Cli.turn_config t)) "thread_id") turns =
    [ JString "my_point_of_view_0e5f"; JString "her_point_of_view_0e5f";
      JString "king_solomon_wise_0e5f" ] ∧
  map (fun t => map tc_name (Cli.turn_calls t)) turns =
    [ ["save_user_story"]; ["save_wife_story"]; ["get_both_stories"] ].
Proof. vm_compute. repeat split. Qed.

Section CliControl.
Context {St : Type} `{BaseStore St}.

Lemma cli_switchMode_same_control (a b : Cli.t St) (answers : Cli.Answers) :
  cli_same_control a b →
  match Cli.switchMode a answers, Cli.switchMode b answers with
  | Some (a', r1), Some (b', r2) => cli_same_control a' b' ∧ r1 = r2
  | None, None => True
  | _, _ => False
  end.
Proof.
  intros (Hm & Hr & Hag). unfold Cli.switchMode.
  destruct (Cli.chosen answers) as [|sel rest]; [done |].
  case_decide; (split; [| done]);
    (split; [exact Hm || reflexivity | split; [exact Hr || reflexivity | exact Hag]]).
Qed.

Lemma cli_chat_same_control (proc1 proc2 : Process) (a b : Cli.t St)
    (answers : Cli.Answers) :
  cli_same_control a b →
  match Cli.chat proc1 a answers, Cli.chat proc2 b answers with
  | Cli.NoAgent, Cli.NoAgent => True
  | Cli.Blocked a', Cli.Blocked b' => cli_same_control a' b'
  | Cli.Returned a' r1 t1, Cli.Returned b' r2 t2 =>
      cli_same_control a' b' ∧ r1 = r2 ∧ map turn_control t1 = map turn_control t2
  | _, _ => False
  end.
Proof.
  intros Hsame. pose proof Hsame as (Hm & Hr & Hall). unfold Cli.chat.
  pose proof (Hall (Cli.currentMode a)) as Hag. rewrite <- Hm.
  destruct (Cli.agents a !! Cli.currentMode a) as [ag1|],
           (Cli.agents b !! Cli.currentMode a) as [ag2|];
    try done;
    try (by destruct Hag as [Hag1 Hag2];
         first [destruct (Hag1 ltac:(by eexists)) | destruct (Hag2 ltac:(by eexists))]).
  destruct (Cli.typed answers) as [|message rest]; [done |].
  case_decide.
  { split; [| done].
    split; [first [exact Hm | reflexivity] | split; [reflexivity | exact Hall]]. }
  case_decide.
  { pose proof (cli_switchMode_same_control a b
                  {| Cli.typed := rest; Cli.chosen := Cli.chosen answers |} Hsame) as Hsw.
    destruct (Cli.switchMode a _) as [[a' r1]|], (Cli.switchMode b _) as [[b' r2]|];
      try done. by destruct Hsw. }
  case_decide; [done |].
  destruct (agent_invoke _ ag1 _ _ _) as [[resp1 w1] calls1],
           (agent_invoke _ ag2 _ _ _) as [[resp2 w2] calls2].
  split; [| split; [done |]].
  - split; [first [exact Hm | reflexivity] | split; [exact Hr | exact Hall]].
  - first [reflexivity | cbn; by rewrite Hm].
Qed.

Lemma cli_chat_loop_same_control (proc1 proc2 : Process) (fuel : nat) (a b : Cli.t St)
    (answers : Cli.Answers) :
  cli_same_control a b →
  outcome_control (Cli.chat_loop fuel proc1 a answers).1 =
    outcome_control (Cli.chat_loop fuel proc2 b answers).1 ∧
  map turn_control (Cli.chat_loop fuel proc1 a answers).2 =
    map turn_control (Cli.chat_loop fuel proc2 b answers).2.
Proof.
  revert a b answers. induction fuel as [|n IH]; intros a b answers Hsame; [done |].
  pose proof Hsame as (Hm & Hr & _). cbn [Cli.chat_loop]. rewrite <- Hr, <- Hm.
  destruct (Cli.isRunning a) eqn:Ha.
  2: { cbn. by rewrite Hm, <- Hr, Ha. }
  case_decide. { cbn. by rewrite Hm, <- Hr, Ha. }
  pose proof (cli_chat_same_control proc1 proc2 a b answers Hsame) as Hchat.
  destruct (Cli.chat proc1 a answers) as [|a'|a' r1 t1],
           (Cli.chat proc2 b answers) as [|b'|b' r2 t2]; try done.
  - cbn. by rewrite Hm, <- Hr, Ha.
  - cbn. by destruct Hchat as (-> & -> & _).
  - destruct Hchat as (Hsame' & <- & Ht).
    destruct (IH a' b' r1 Hsame') as [IHo IHt].
    destruct (Cli.chat_loop n proc1 a' r1), (Cli.chat_loop n proc2 b' r1).
    cbn [fst snd] in *. split; [done |]. by rewrite !map_app, Ht, IHt.
Qed.

(** X16: what the engine does never steers an interactive session. Run
    with two processes, that is with different chat models, recursion
    limits and failures of the engine, on objects that agree on the mode,
    the running flag and the modes that have an agent, the loop ends the
    same way, in the same mode, and hands the same messages to the same
    personas: an error of a turn is caught and the session goes on. *)
Theorem cli_control_independent_of_engine (proc1 proc2 : Process) (a b : Cli.t St)
    (answers : Cli.Answers) :
  cli_same_control a b →
  outcome_control (Cli.start proc1 a answers).1 =
    outcome_control (Cli.start proc2 b answers).1 ∧
  map turn_control (Cli.start proc1 a answers).2 =
    map turn_control (Cli.start proc2 b answers).2.
Proof.
  intros (Hm & Hr & Hag). unfold Cli.start.
  assert (Hsame : cli_same_control (Cli.set_isRunning a true) (Cli.set_isRunning b true)).
  { split; [exact Hm | split; [reflexivity | exact Hag]]. }
  pose proof (cli_switchMode_same_control _ _ answers Hsame) as Hsw.
  destruct (Cli.switchMode (Cli.set_isRunning a true) answers) as [[a' r1]|],
           (Cli.switchMode (Cli.set_isRunning b true) answers) as [[b' r2]|]; try done.
  - destruct Hsw as [Hsame' <-]. by apply cli_chat_loop_same_control.
  - cbn. by rewrite Hm.
Qed.
End CliControl.

Lemma cli_control_independent_of_engine_witness :
  let answers := {| Cli.typed := ["She spends too much"; "exit"];
                    Cli.chosen := [MODES.USER] |} in
  let good := demo_process (persona_model "She overspent" "I bought what we need") in
  let failing := {| OPENAI_API_KEY := JString "sk-test"; ANTHROPIC_API_KEY := JUndefined;
                    initChatModel := fun _ _ => inr (scripted []);
                    recursionLimit := 0 |} in
  let self := default (Cli.constructor "0e5f" empty_store)
                      (Cli.initialize good (Cli.constructor "0e5f" empty_store)) in
  map Cli.turn_ok (Cli.start good self answers).2 = [true] ∧
  map Cli.turn_ok (Cli.start failing self answers).2 = [false] ∧
  outcome_control (Cli.start good self answers).1 =
    outcome_control (Cli.start failing self answers).1 ∧
  map turn_control (Cli.start good self answers).2 =
    map turn_control (Cli.start failing self answers).2.
Proof.
  intros answers good failing self.
  split; [vm_compute; reflexivity |]. split; [vm_compute; reflexivity |].
  apply (cli_control_independent_of_engine good failing self self answers).
  split; [reflexivity | split; [reflexivity |]]. intros m. reflexivity.
Defined.

Lemma reads_only_by_arbiter_witness :
  Forall reader_ok
    (run (demo_process (persona_model "She overspent" "I bought what we need")) constructor
         [ DoSetMode "user"; DoInvoke (say JUndefined "She spends too much") no_config;
           DoSetMode "solomon"; DoInvoke (say JUndefined "Judge us") no_config ]).2.
Proof. apply reads_only_by_arbiter. Defined.


Lemma cli_turns_store_policy_witness :
  Forall turn_store_policy
    (Cli.main (demo_process (persona_model "She overspent" "I bought what we need"))
              "0e5f" empty_store
              {| Cli.typed := ["She spends too much"; "menu"; "Judge us"; "exit"];
                 Cli.chosen := [MODES.USER; MODES.SOLOMON] |}).2.
Proof. apply cli_turns_store_policy. Defined.
